(** * Tachylite: vault indexing, link resolution and path sandbox

    A shallow embedding of [server.py] and [build_static.py].

    Conventions of the model.
    - A Python [str] is a [string] of bytes (its UTF-8 encoding).  Byte-wise
      lexicographic order coincides with code-point order, and the
      characters the code looks for ([/], [.], [|], the brackets) are ASCII.
      [str.lower] is modelled on ASCII letters.
    - The filesystem is a tree of directories and regular files; symbolic
      links are outside the model, so [Path.resolve] is the normalisation
      that [os.path.realpath] performs on a link-free tree.  A directory
      keeps its entries in listing order ([os.scandir] order).
    - [st_mtime] is a float that the code only formats and compares for
      equality; a float is represented by its [repr], the decimal string
      Python prints for it.
    - Module globals ([VAULT], the configuration, [_session_files],
      [_tree_cache]) are explicit: the read-only ones are section
      variables, the mutable ones fields of a state record.
    - pathlib semantics are those of CPython 3.8 to 3.11. *)

From Stdlib Require Import String Ascii List ZArith Lia Bool.
From Stdlib Require Import DecimalString DecimalNat.
From stdpp Require Import base list strings gmap sets sorting.

Set Default Proof Using "Type".

Open Scope string_scope.
Open Scope list_scope.

(** ** Strings *)

Module Str.

Definition is_upper (c : ascii) : bool :=
let n := nat_of_ascii c in (65 <=? n)%nat && (n <=? 90)%nat.

Definition lower_ascii (c : ascii) : ascii :=
if is_upper c then ascii_of_nat (nat_of_ascii c + 32) else c.

(** [str.lower()] *)
Fixpoint lower (s : string) : string :=
match s with
| EmptyString => EmptyString
| String c s' => String (lower_ascii c) (lower s')
end.

(** [a < b] on [str] *)
Fixpoint ltb (a b : string) : bool :=
match a, b with
| _, EmptyString => false
| EmptyString, String _ _ => true
| String x a', String y b' =>
    (nat_of_ascii x <? nat_of_ascii y)%nat
    || (Ascii.eqb x y && ltb a' b')
end.

(** [s.split(sep)] for a one-character separator *)
Fixpoint split (sep : ascii) (s : string) : list string :=
match s with
| EmptyString => [EmptyString]
| String c s' =>
    if Ascii.eqb c sep then EmptyString :: split sep s'
    else match split sep s' with
         | [] => [String c EmptyString]
         | w :: ws => String c w :: ws
         end
end.

(** [sep.join(l)] *)
Fixpoint join (sep : string) (l : list string) : string :=
match l with
| [] => EmptyString
| [x] => x
| x :: l' => x +:+ sep +:+ join sep l'
end.

(** [s.rfind(c)], [None] for -1 *)
Fixpoint rfind (c : ascii) (s : string) : option nat :=
match s with
| EmptyString => None
| String x s' =>
    match rfind c s' with
    | Some i => Some (S i)
    | None => if Ascii.eqb x c then Some 0%nat else None
    end
end.

(** [s.startswith(p)] *)
Definition startswith (p s : string) : bool := String.prefix p s.

(** [s.replace(a, b)] for single characters *)
Fixpoint replace_char (a b : ascii) (s : string) : string :=
match s with
| EmptyString => EmptyString
| String c s' => String (if Ascii.eqb c a then b else c) (replace_char a b s')
end.

Definition is_space (c : ascii) : bool :=
let n := nat_of_ascii c in
((9 <=? n)%nat && (n <=? 13)%nat) || ((28 <=? n)%nat && (n <=? 32)%nat).

Fixpoint lstrip (s : string) : string :=
match s with
| String c s' => if is_space c then lstrip s' else s
| EmptyString => EmptyString
end.

Fixpoint rstrip (s : string) : string :=
match s with
| EmptyString => EmptyString
| String c s' =>
    match rstrip s' with
    | EmptyString => if is_space c then EmptyString else String c EmptyString
    | r => String c r
    end
end.

(** [s.strip()] *)
Definition strip (s : string) : string := rstrip (lstrip s).

(** [str(n)] for a non-negative integer *)
Definition of_nat (n : nat) : string := NilEmpty.string_of_uint (Nat.to_uint n).

(** [p in s] on [str] *)
Fixpoint contains (p s : string) : bool :=
String.prefix p s ||
match s with
| EmptyString => false
| String _ s' => contains p s'
end.

(** Truthiness of a [str] *)
Definition nonempty (s : string) : bool :=
match s with EmptyString => false | _ => true end.

(** [s.endswith(p)] *)
Fixpoint endswith (p s : string) : bool :=
String.eqb p s ||
match s with
| EmptyString => false
| String _ s' => endswith p s'
end.

End Str.

(** ** pathlib *)

Module pathlib.

(** A [PurePosixPath]: its root ([""], ["/"] or ["//"]) and its
  components. *)
Record Path := mkPath { root : string; parts : list string }.

#[global] Instance Path_eq_dec : EqDecision Path.
Proof. solve_decision. Defined.

(** The root pathlib splits off: two leading slashes are kept apart,
  three or more collapse to one. *)
Definition splitroot (s : string) : string :=
match s with
| String "/" (String "/" (String "/" _)) => "/"
| String "/" (String "/" _) => "//"
| String "/" _ => "/"
| _ => ""
end.

Definition keep_part (x : string) : bool :=
Str.nonempty x && negb (String.eqb x ".").

(** [Path(s)] *)
Definition parse (s : string) : Path :=
mkPath (splitroot s) (List.filter keep_part (Str.split "/" s)).

(** [a / b] on two paths *)
Definition joinpath (a b : Path) : Path :=
if Str.nonempty (root b) then b
else mkPath (root a) (parts a ++ parts b).

(** [a / s] with a [str] on the right *)
Definition div (a : Path) (s : string) : Path := joinpath a (parse s).

(** [Path( *segments )] *)
Definition of_segments (l : list string) : Path :=
fold_left div l (mkPath "" []).

(** [str(p)] *)
Definition str (p : Path) : string :=
match root p, parts p with
| EmptyString, [] => "."
| r, ps => r +:+ Str.join "/" ps
end.

(** [p.name] *)
Definition name (p : Path) : string := List.last (parts p) "".

(** The suffix of a file name: from its last dot, unless that dot is the
  first or the last character. *)
Definition suffix_of (nm : string) : string :=
match Str.rfind "." nm with
| Some i =>
    if (0 <? i)%nat && (i <? String.length nm - 1)%nat
    then String.substring i (String.length nm - i) nm
    else ""
| None => ""
end.

Definition stem_of (nm : string) : string :=
match Str.rfind "." nm with
| Some i =>
    if (0 <? i)%nat && (i <? String.length nm - 1)%nat
    then String.substring 0 i nm
    else nm
| None => nm
end.

(** [p.suffix], [p.stem] *)
Definition suffix (p : Path) : string := suffix_of (name p).
Definition stem (p : Path) : string := stem_of (name p).

(** [p.parent] *)
Definition parent (p : Path) : Path := mkPath (root p) (List.removelast (parts p)).

Fixpoint strip_prefix (pre l : list string) : option (list string) :=
match pre, l with
| [], _ => Some l
| x :: pre', y :: l' => if String.eqb x y then strip_prefix pre' l' else None
| _ :: _, [] => None
end.

(** [p.relative_to(other)]; [None] stands for [ValueError]. *)
Definition relative_to (p other : Path) : option Path :=
if String.eqb (root p) (root other)
then mkPath "" <$> strip_prefix (parts other) (parts p)
else None.

(** Components of an absolute path after [..] has been applied; the
  accumulator is kept reversed.  [..] at the root stays at the root. *)
Fixpoint normalize (acc : list string) (l : list string) : list string :=
match l with
| [] => List.rev acc
| x :: l' =>
    if String.eqb x ".." then normalize (List.tl acc) l'
    else normalize (x :: acc) l'
end.

(** [p.resolve()] on a link-free filesystem, with [cwd] the working
  directory that a relative path is taken from. *)
Definition resolve (cwd : list string) (p : Path) : Path :=
mkPath "/" (normalize [] ((if Str.nonempty (root p) then [] else cwd) ++ parts p)).

End pathlib.

Export pathlib(Path, mkPath).
Notation "a // s" := (pathlib.div a s) (at level 40, left associativity).

(** ** Filesystem *)

Module fs.

#[local] Set Warnings "-register-all".


Inductive node :=
| File (content : string) (mtime : string)
| Dir (entries : list (string * node)).

Definition is_dir_node (n : node) : bool :=
match n with Dir _ => true | File _ _ => false end.

Definition is_file_node (n : node) : bool :=
match n with File _ _ => true | Dir _ => false end.

(** The entry a name denotes in a directory listing. *)
Fixpoint get_entry (nm : string) (es : list (string * node)) : option node :=
match es with
| [] => None
| (x, n) :: es' => if String.eqb x nm then Some n else get_entry nm es'
end.

Fixpoint set_entry (nm : string) (c : node) (es : list (string * node))
: list (string * node) :=
match es with
| [] => [(nm, c)]
| (x, n) :: es' =>
    if String.eqb x nm then (nm, c) :: es' else (x, n) :: set_entry nm c es'
end.

Fixpoint del_entry (nm : string) (es : list (string * node))
: list (string * node) :=
match es with
| [] => []
| (x, n) :: es' =>
    if String.eqb x nm then es' else (x, n) :: del_entry nm es'
end.

(** Path resolution as the kernel does it: [anc] holds the directories
  entered so far, innermost first, so that [..] can climb back.  [..]
  under a regular file is an error, [..] at the root stays there. *)
Fixpoint walk (anc : list node) (cur : node) (l : list string) : option node :=
match l with
| [] => Some cur
| x :: l' =>
    match cur with
    | File _ _ => None
    | Dir es =>
        if String.eqb x ".." then
          match anc with
          | [] => walk [] cur l'
          | a :: anc' => walk anc' a l'
          end
        else
          match get_entry x es with
          | Some c => walk (cur :: anc) c l'
          | None => None
          end
    end
end.

Section Queries.
Variable cwd : list string.
Variable root : node.

Definition abs_parts (p : Path) : list string :=
(if Str.nonempty (pathlib.root p) then [] else cwd) ++ pathlib.parts p.

(** [os.stat(p)] *)
Definition stat (p : Path) : option node := walk [] root (abs_parts p).

(** [p.exists()], [p.is_file()], [p.is_dir()] *)
Definition exists_ (p : Path) : bool := bool_decide (is_Some (stat p)).
Definition is_file (p : Path) : bool :=
match stat p with Some (File _ _) => true | _ => false end.
Definition is_dir (p : Path) : bool :=
match stat p with Some (Dir _) => true | _ => false end.

(** [p.read_text()]; [None] stands for [OSError]. *)
Definition read_text (p : Path) : option string :=
match stat p with Some (File c _) => Some c | _ => None end.

(** [p.stat().st_mtime] of a regular file *)
Definition st_mtime (p : Path) : option string :=
match stat p with Some (File _ m) => Some m | _ => None end.

(** [os.scandir(p)] and [p.iterdir()]: the entries in listing order;
[None] stands for [OSError]. *)
Definition scandir (p : Path) : option (list (string * node)) :=
match stat p with Some (Dir es) => Some es | _ => None end.
End Queries.

(** Updates take the components of a resolved path, from the root. *)

(** [open(p, "w").write(c)]: creates the file or replaces its content. *)
Fixpoint write_at (l : list string) (c m : string) (n : node) : option node :=
match l, n with
| [], File _ _ => Some (File c m)
| [], Dir _ => None
| _ :: _, File _ _ => None
| x :: l', Dir es =>
    match get_entry x es with
    | Some ch =>
        match write_at l' c m ch with
        | Some ch' => Some (Dir (set_entry x ch' es))
        | None => None
        end
    | None =>
        match l' with
        | [] => Some (Dir (es ++ [(x, File c m)]))
        | _ :: _ => None
        end
    end
end.

(** [p.unlink()] *)
Fixpoint unlink_at (l : list string) (n : node) : option node :=
match l, n with
| [x], Dir es =>
    match get_entry x es with
    | Some (File _ _) => Some (Dir (del_entry x es))
    | _ => None
    end
| x :: l', Dir es =>
    match get_entry x es with
    | Some ch =>
        match unlink_at l' ch with
        | Some ch' => Some (Dir (set_entry x ch' es))
        | None => None
        end
    | None => None
    end
| _, _ => None
end.

(** A chain of fresh directories [x1/x2/...]. *)
Fixpoint fresh_dirs (l : list string) : node :=
match l with
| [] => Dir []
| x :: l' => Dir [(x, fresh_dirs l')]
end.

(** [p.mkdir(parents=True, exist_ok=True)] *)
Fixpoint mkdir_p (l : list string) (n : node) : option node :=
match l, n with
| _, File _ _ => None
| [], Dir _ => Some n
| x :: l', Dir es =>
    match get_entry x es with
    | Some ch =>
        match mkdir_p l' ch with
        | Some ch' => Some (Dir (set_entry x ch' es))
        | None => None
        end
    | None => Some (Dir (es ++ [(x, fresh_dirs l')]))
    end
end.



(** Number of directory entries in a tree. *)
Fixpoint size (n : node) : nat :=
match n with
| File _ _ => 1
| Dir es =>
    S ((fix go (es : list (string * node)) : nat :=
          match es with
          | [] => 0
          | (_, c) :: es' => size c + go es'
          end) es)
end.

End fs.

Export fs(node, File, Dir).

(** ** Python's [sorted] *)

Section Sorted.
Context {A : Type} (lt : A → A → bool).

(** Insertion keeps equal keys in their original order, as the sort of
    the standard library does. *)
Fixpoint insert_sorted (x : A) (l : list A) : list A :=
  match l with
  | [] => [x]
  | y :: l' => if lt y x then y :: insert_sorted x l' else x :: y :: l'
  end.

Fixpoint sorted (l : list A) : list A :=
  match l with
  | [] => []
  | x :: l' => insert_sorted x (sorted l')
  end.
End Sorted.

(** Order on lists of components, the way pathlib compares paths. *)
Fixpoint parts_ltb (a b : list string) : bool :=
  match a, b with
  | _, [] => false
  | [], _ :: _ => true
  | x :: a', y :: b' => Str.ltb x y || (String.eqb x y && parts_ltb a' b')
  end.

Definition path_ltb (a b : Path) : bool :=
  Str.ltb (pathlib.root a) (pathlib.root b)
  || (String.eqb (pathlib.root a) (pathlib.root b)
      && parts_ltb (pathlib.parts a) (pathlib.parts b)).

(** ** Configuration and server state *)

(** The keys of [tachylite.config.json] after [_load_config]. *)
Record Config := mkConfig {
  allow_edit_all : bool;
  allow_file_creation : bool;
  excluded_dirs : list string;
  excluded_files : list string;
  allowed_upload_extensions : list string;
  poll_interval : Z;
}.

(** [_DEFAULTS] *)
Definition _DEFAULTS : Config := {|
  allow_edit_all := false;
  allow_file_creation := true;
  excluded_dirs :=
    [".obsidian"; "Templates"; ".git"; ".claude"; ".trash"; "__pycache__";
     "_site"; ".github"];
  excluded_files :=
    ["server.py"; "build_static.py"; "deploy.sh"; "deploy-tachylite.sh";
     "setup-autostart.sh"; "tachylite.config.json"];
  allowed_upload_extensions :=
    [".md"; ".txt"; ".pdf"; ".png"; ".jpg"; ".jpeg"; ".gif"; ".webp"; ".svg"];
  poll_interval := 15;
|}.

(** [_tree_cache] *)
Record TreeCache := mkTreeCache { cache_hash : option string; cache_ts : Z }.

(** What a request can change: the filesystem and the module-level
    dictionaries. *)
Record State := mkState {
  st_fs : node;
  _session_files : gmap string (gset string);
  _tree_cache : TreeCache;
}.

(** What a handler reads from its surroundings: the session cookie, the
    clocks and the token the next call of [secrets.token_urlsafe] returns. *)
Record Request := mkRequest {
  cookie : option string;
  monotonic : Z;
  wall_clock : string;
  fresh_token : string;
}.

(** The JSON value under ["content"] in the body of a PUT, as far as the
    handler tells cases apart. *)
Inductive PutBody :=
  | BodyAbsent                  (* no JSON, or a falsy JSON value *)
  | BodyNotDict                 (* a truthy JSON value that is no object *)
  | BodyDict (content : option (option string)).
      (* no key; a key with a non-string; a key with a string *)

Inductive Payload :=
  | NoteDoc (html path name mtime : string) (editable : bool)
  | PutOk (path mtime : string)
  | DeleteOk
  | RawDoc (content path : string)
  | CreatedOk (path : string) (set_cookie : option string)
  | FileBytes (content : string).

Inductive Response :=
  | Ok200 (body : Payload)
  | Abort (code : nat)
  | JsonError (code : nat) (message : string)
  | Uncaught.                   (* an exception no handler catches *)

(** ** Results of the tree builder *)

(** How a computation that recurses on the filesystem can end: with a
    value, with an exception that nothing catches, or with the recursion
    budget of the model used up. *)
Inductive outcome (A : Type) :=
  | Done (a : A)
  | Raised
  | OutOfFuel.
Arguments Done {A} a.
Arguments Raised {A}.
Arguments OutOfFuel {A}.

(** A node of the tree document: [{"type": "folder", ...}] or
    [{"type": "file", ...}]. *)
#[local] Set Warnings "-register-all".
Inductive TreeNode :=
  | Folder (name path : string) (children : list TreeNode)
  | FileNode (name path : string) (editable : bool).

Definition node_name (n : TreeNode) : string :=
  match n with Folder nm _ _ => nm | FileNode nm _ _ => nm end.


(** [a < b] on the tuples [(not e.is_dir(), e.name.lower())]. *)
Definition key_ltb (a b : bool * string) : bool :=
  (negb a.1 && b.1) || (Bool.eqb a.1 b.1 && Str.ltb a.2 b.2).


(** ** The graph document *)

Inductive Group := note | pdf | image | folder | other.

#[global] Instance Group_eq_dec : EqDecision Group.
Proof. solve_decision. Defined.

(** A node of the graph; ["links"] is set by the last loop only. *)
Record GraphNode := mkGraphNode {
  node_id : string;
  node_display : string;
  node_path : string;
  node_group : Group;
  node_links : option nat;
}.

Inductive EdgeKind := folder_edge | link_edge.

Record Edge := mkEdge { source : string; target : string; kind : EdgeKind }.

Record Graph := mkGraph { nodes : list GraphNode; edges : list Edge }.

(** A [dict] keeps its keys in insertion order; assigning to a key that
    is present keeps the key where it is. *)
Fixpoint dict_set {V : Type} (k : string) (v : V) (d : list (string * V))
  : list (string * V) :=
  match d with
  | [] => [(k, v)]
  | (k', v') :: d' =>
      if String.eqb k' k then (k, v) :: d' else (k', v') :: dict_set k v d'
  end.

(** [k in d] *)
Definition dict_has {V : Type} (k : string) (d : list (string * V)) : bool :=
  existsb (λ kv, String.eqb kv.1 k) d.

(** ** MD5

    [hashlib.md5] as RFC 1321 defines it, on the bytes of a string; the
    digest is printed the way [hexdigest] prints it. *)

Module MD5.

Local Open Scope N_scope.

Definition mask32 : N := 4294967295.

Definition add32 (a b : N) : N := N.land (a + b) mask32.

Definition rotl32 (x : N) (n : N) : N :=
  N.land (N.lor (N.shiftl x n) (N.shiftr x (32 - n))) mask32.

Definition not32 (x : N) : N := N.lxor x mask32.

(** The sine table and the rotation amounts, one entry per step. *)
Definition sines : list N :=
  [3614090360; 3905402710; 606105819; 3250441966;
   4118548399; 1200080426; 2821735955; 4249261313;
   1770035416; 2336552879; 4294925233; 2304563134;
   1804603682; 4254626195; 2792965006; 1236535329;
   4129170786; 3225465664; 643717713; 3921069994;
   3593408605; 38016083; 3634488961; 3889429448;
   568446438; 3275163606; 4107603335; 1163531501;
   2850285829; 4243563512; 1735328473; 2368359562;
   4294588738; 2272392833; 1839030562; 4259657740;
   2763975236; 1272893353; 4139469664; 3200236656;
   681279174; 3936430074; 3572445317; 76029189;
   3654602809; 3873151461; 530742520; 3299628645;
   4096336452; 1126891415; 2878612391; 4237533241;
   1700485571; 2399980690; 4293915773; 2240044497;
   1873313359; 4264355552; 2734768916; 1309151649;
   4149444226; 3174756917; 718787259; 3951481745].

Definition shifts : list N :=
  [7; 12; 17; 22; 7; 12; 17; 22; 7; 12; 17; 22; 7; 12; 17; 22;
   5; 9; 14; 20; 5; 9; 14; 20; 5; 9; 14; 20; 5; 9; 14; 20;
   4; 11; 16; 23; 4; 11; 16; 23; 4; 11; 16; 23; 4; 11; 16; 23;
   6; 10; 15; 21; 6; 10; 15; 21; 6; 10; 15; 21; 6; 10; 15; 21].

Definition bytes_of (s : string) : list N := N_of_ascii <$> list_ascii_of_string s.

(** The bytes of [n], least significant first. *)
Fixpoint le_bytes (count : nat) (n : N) : list N :=
  match count with
  | O => []
  | S count' => N.land n 255 :: le_bytes count' (N.shiftr n 8)
  end.

(** The message, the byte 128, zeros up to 56 modulo 64, and the length
    in bits as eight bytes. *)
Definition pad (msg : list N) : list N :=
  let len := List.length msg in
  let zeros := ((55 + 64 - len mod 64) mod 64)%nat in
  msg ++ [128] ++ List.repeat 0 zeros ++ le_bytes 8 (8 * N.of_nat len).

Fixpoint word_of_le (bytes : list N) : N :=
  match bytes with
  | [] => 0
  | b :: rest => b + 256 * word_of_le rest
  end.

(** A list cut into pieces of [size] elements; [count] pieces at most. *)
Fixpoint chunks {A : Type} (count size : nat) (l : list A) : list (list A) :=
  match count with
  | O => []
  | S count' =>
      match l with
      | [] => []
      | _ => take size l :: chunks count' size (drop size l)
      end
  end.

Definition step (M : list N) (st : N * N * N * N) (i : nat) : N * N * N * N :=
  let '(a, b, c, d) := st in
  let '(f, g) :=
    if (i <? 16)%nat then (N.lor (N.land b c) (N.land (not32 b) d), i)
    else if (i <? 32)%nat
    then (N.lor (N.land d b) (N.land (not32 d) c), ((5 * i + 1) mod 16)%nat)
    else if (i <? 48)%nat
    then (N.lxor (N.lxor b c) d, ((3 * i + 5) mod 16)%nat)
    else (N.lxor c (N.lor b (not32 d)), ((7 * i) mod 16)%nat) in
  let f := add32 (add32 (add32 f a) (nth i sines 0)) (nth g M 0) in
  (d, add32 b (rotl32 f (nth i shifts 0)), b, c).

Definition process_block (st : N * N * N * N) (block : list N) : N * N * N * N :=
  let M := word_of_le <$> chunks 16 4 block in
  let '(a, b, c, d) := st in
  let '(a', b', c', d') := fold_left (step M) (seq 0 64) st in
  (add32 a a', add32 b b', add32 c c', add32 d d').

Definition hex_digit (n : N) : ascii :=
  nth (N.to_nat n)
      ["0"; "1"; "2"; "3"; "4"; "5"; "6"; "7"; "8"; "9";
       "a"; "b"; "c"; "d"; "e"; "f"]%char "0"%char.

Fixpoint hex_of_bytes (bytes : list N) : string :=
  match bytes with
  | [] => EmptyString
  | b :: rest =>
      String (hex_digit (N.shiftr b 4))
             (String (hex_digit (N.land b 15)) (hex_of_bytes rest))
  end.

(** [hashlib.md5(s).hexdigest()] *)
Definition hexdigest (s : string) : string :=
  let msg := pad (bytes_of s) in
  let blocks := chunks (List.length msg) 64 msg in
  let '(a, b, c, d) :=
    fold_left process_block blocks (1732584193, 4023233417, 2562383102, 271733878) in
  hex_of_bytes (le_bytes 4 a ++ le_bytes 4 b ++ le_bytes 4 c ++ le_bytes 4 d).

End MD5.

(** ** A sample vault

    The tree the worked examples run on: a vault at [/srv/vault] holding
    the server script, two linked notes, a note from before the server
    ran, a top-level note whose name begins like the build directory, and
    a [.git] directory; [/etc/passwd] lies outside. *)

Definition demo_root : node :=
  Dir [("srv", Dir [("vault", Dir [
          ("server.py", File "import flask" "1700000000.0");
          ("Notes", Dir [
             ("B.md", File "# B" "1700000200.25");
             ("A.md", File "See [[B]] and [[missing]]. Again [[B|b]]."
                           "1700000100.5")]);
          ("_sitemap.md", File "map" "1700000300.0");
          (".git", Dir [("config", File "[core]" "1690000000.0")]);
          ("Y.md", File "old" "1600000000.0")])]);
       ("etc", Dir [("passwd", File "root:x:0:0" "1500000000.0")])].

Definition demo_cwd : list string := ["srv"; "vault"].
Definition demo_script : string := "/srv/vault/server.py".

(** A server that has handed out one session, which created [X.md]. *)
Definition demo_state : State :=
  mkState demo_root {[ "sid1" := {[ "X.md" ]} ]} (mkTreeCache None 0).

Definition demo_request : Request :=
  mkRequest (Some "sid1") 100 "1700000999.0" "tok".

Definition edit_all_config : Config :=
  mkConfig true true (excluded_dirs _DEFAULTS) (excluded_files _DEFAULTS)
           (allowed_upload_extensions _DEFAULTS) (poll_interval _DEFAULTS).




Definition demo_request_at (now : Z) : Request :=
  mkRequest (Some "sid1") now "1700000999.0" "tok".

(** A vault as the project itself is laid out: the two scripts, the
    build directory [_site] of an earlier export, and the notes. *)
Definition demo_root_plain : node :=
  Dir [("srv", Dir [("vault", Dir [
          ("server.py", File "import flask" "1700000000.0");
          ("build_static.py", File "import server" "1700000000.0");
          ("_site", Dir [("index.html", File "<html>" "1700000400.0")]);
          ("Notes", Dir [
             ("B.md", File "# B" "1700000200.25");
             ("A.md", File "See [[B]] and [[missing]]. Again [[B|b]]."
                           "1700000100.5")]);
          ("Y.md", File "old" "1600000000.0")])])].

Definition demo_state_plain : State :=
  mkState demo_root_plain ∅ (mkTreeCache None 0).

(** A server whose session [sid1] created [Notes/A.md]. *)
Definition demo_state_owner : State :=
  mkState demo_root {[ "sid1" := {[ "Notes/A.md" ]} ]} (mkTreeCache None 0).

Definition demo_note : Path := mkPath "/" ["srv"; "vault"; "Notes"; "A.md"].

(** ** server.py *)

Section Server.
(** The working directory, the location of [server.py] and the loaded
    configuration. *)
Variable cwd : list string.
Variable script_file : string.
Variable cfg : Config.

(** What the model does not look into: [werkzeug.utils.secure_filename],
    and the part of [render_markdown] after [process_wikilinks] (URL
    auto-linking, [markdown.markdown], the anchor attributes). *)
Variable secure_filename : string → string.
Variable markdown_html : string → string.

Definition VAULT : Path :=
  pathlib.parent (pathlib.resolve cwd (pathlib.parse script_file)).

Definition ALLOW_EDIT_ALL : bool := allow_edit_all cfg.
Definition ALLOW_FILE_CREATION : bool := allow_file_creation cfg.
Definition EXCLUDED_DIRS : gset string := list_to_set (excluded_dirs cfg).
Definition EXCLUDED_FILES : gset string := list_to_set (excluded_files cfg).
Definition ALLOWED_UPLOAD_EXTENSIONS : gset string :=
  list_to_set (allowed_upload_extensions cfg).
Definition POLL_INTERVAL : Z := Z.max 1 (poll_interval cfg).
Definition _TREE_CACHE_TTL : Z := POLL_INTERVAL.

(** [any(part in EXCLUDED_DIRS for part in parts)] *)
Definition any_excluded_dir (l : list string) : bool :=
  existsb (λ part, bool_decide (part ∈ EXCLUDED_DIRS)) l.

(** [_sid_owns] *)
Definition _sid_owns (st : State) (req : Request) (rel_str : string) : bool :=
  if ALLOW_EDIT_ALL then true
  else
    let sid := default "" (cookie req) in
    match _session_files st !! sid with
    | Some owned => bool_decide (rel_str ∈ owned)
    | None => false
    end.

(** [_safe_vault_path] *)
Definition _safe_vault_path (raw_path : string) : option Path :=
  if negb (Str.nonempty raw_path) then None
  else
    let candidate := pathlib.resolve cwd (VAULT // raw_path) in
    match pathlib.relative_to candidate (pathlib.resolve cwd VAULT) with
    | None => None
    | Some rel =>
        if any_excluded_dir (pathlib.parts rel) then None
        else if bool_decide (pathlib.name candidate ∈ EXCLUDED_FILES) then None
        else Some candidate
    end.

(** *** Wikilinks *)

(** The longest prefix of [s] with no character satisfying [stop], and
    what follows it. *)
Fixpoint span_until (stop : ascii → bool) (s : string) : string * string :=
  match s with
  | EmptyString => (EmptyString, EmptyString)
  | String c s' =>
      if stop c then (EmptyString, s)
      else let '(t, r) := span_until stop s' in (String c t, r)
  end.

Definition is_close_or_bar (c : ascii) : bool :=
  Ascii.eqb c "]" || Ascii.eqb c "|".
Definition is_close (c : ascii) : bool := Ascii.eqb c "]".

(** A match of [\[\[([^\]|]+?)(?:\|([^\]]*?))?\]\]] anchored at the start
    of [s]: group 1, group 2 and the text after the match.  Neither
    group can hold the character that must follow it, so each is the
    whole run up to that character. *)
Definition match_wikilink (s : string)
  : option (string * option string * string) :=
  match s with
  | String "[" (String "[" s1) =>
      let '(target, r) := span_until is_close_or_bar s1 in
      if negb (Str.nonempty target) then None
      else
        match r with
        | String "]" (String "]" rest) => Some (target, None, rest)
        | String "|" r1 =>
            let '(alias, r2) := span_until is_close r1 in
            match r2 with
            | String "]" (String "]" rest) => Some (target, Some alias, rest)
            | _ => None
            end
        | _ => None
        end
  | _ => None
  end.

(** The embed pattern: the same after a [!]. *)
Definition match_embed (s : string)
  : option (string * option string * string) :=
  match s with
  | String "!" s' => match_wikilink s'
  | _ => None
  end.

Section Regex.
Variable matcher : string → option (string * option string * string).

(** [pattern.finditer(text)]: the groups of the non-overlapping
    matches, left to right.  [skip] counts the characters of the
    current match still to be passed over. *)
Fixpoint finditer_from (skip : nat) (s : string)
  : list (string * option string) :=
  match s with
  | EmptyString => []
  | String _ s' =>
      match skip with
      | S k => finditer_from k s'
      | O =>
          match matcher s with
          | Some (g1, g2, rest) =>
              (g1, g2)
                :: finditer_from (String.length s - String.length rest - 1) s'
          | None => finditer_from 0 s'
          end
      end
  end.

(** [re.sub(pattern, repl, text)] with a function for [repl]. *)
Fixpoint sub_from (repl : string → option string → string)
  (skip : nat) (s : string) : string :=
  match s with
  | EmptyString => EmptyString
  | String c s' =>
      match skip with
      | S k => sub_from repl k s'
      | O =>
          match matcher s with
          | Some (g1, g2, rest) =>
              repl g1 g2
                +:+ sub_from repl (String.length s - String.length rest - 1) s'
          | None => String c (sub_from repl 0 s')
          end
      end
  end.
End Regex.

Definition image_exts : list string :=
  [".png"; ".jpg"; ".jpeg"; ".gif"; ".svg"; ".webp"].

Definition is_image_ext (ext : string) : bool :=
  existsb (String.eqb ext) image_exts.

(** [replace_embed] *)
Definition replace_embed (target : string) (_ : option string) : string :=
  let ext := Str.lower (pathlib.suffix (pathlib.parse target)) in
  if is_image_ext ext then "![" +:+ target +:+ "](/raw/" +:+ target +:+ ")"
  else if String.eqb ext ".pdf" then "[" +:+ target +:+ "](#pdf:" +:+ target +:+ ")"
  else "[" +:+ target +:+ "](#file:" +:+ target +:+ ")".

(** [replace_link]; [m.group(2)] is [None] when the alias part did not
    take part in the match. *)
Definition replace_link (target : string) (group2 : option string) : string :=
  let display :=
    match group2 with
    | Some a => if Str.nonempty a then a else target
    | None => target
    end in
  let ext := Str.lower (pathlib.suffix (pathlib.parse target)) in
  if String.eqb ext ".pdf" then "[" +:+ display +:+ "](#pdf:" +:+ target +:+ ")"
  else if is_image_ext ext then "[" +:+ display +:+ "](#img:" +:+ target +:+ ")"
  else
    let target := if negb (Str.nonempty ext) then target +:+ ".md" else target in
    "[" +:+ display +:+ "](#note:" +:+ target +:+ ")".

(** The two passes of [process_wikilinks]. *)
Definition expand_embeds (text : string) : string :=
  sub_from match_embed replace_embed 0 text.
Definition expand_wikilinks (text : string) : string :=
  sub_from match_wikilink replace_link 0 text.

(** [process_wikilinks] *)
Definition process_wikilinks (text : string) : string :=
  expand_wikilinks (expand_embeds text).

(** [render_markdown] *)
Definition render_markdown (text : string) : string :=
  markdown_html (process_wikilinks text).

(** *** Looking files up *)

(** The directories below a directory, itself first, each before its
    subdirectories, siblings in listing order: the order in which
    [rglob] visits them.  Paths are relative to the starting point. *)
Fixpoint iterate_directories (here : list string) (n : node)
  : list (list string) :=
  match n with
  | File _ _ => []
  | Dir es =>
      here ::
      (fix go (es : list (string * node)) : list (list string) :=
         match es with
         | [] => []
         | (x, c) :: es' => iterate_directories (here ++ [x]) c ++ go es'
         end) es
  end.

Definition under_vault (rel : list string) : Path :=
  mkPath (pathlib.root VAULT) (pathlib.parts VAULT ++ rel).

(** [VAULT.rglob(name)] for a single component: in every directory, the
    path of that name if it exists; for the empty name the directories
    themselves.  A name holding wildcard characters is matched
    literally. *)
Definition rglob_name (root : node) (nm : string) : list Path :=
  match fs.stat cwd root VAULT with
  | Some top =>
      if negb (Str.nonempty nm)
      then under_vault <$> iterate_directories [] top
      else
        List.filter (fs.exists_ cwd root)
          ((λ d, under_vault (d ++ [nm])) <$> iterate_directories [] top)
  | None => []
  end.

(** Every path below a directory, as [rglob("*")] yields them: for each
    directory visited, its entries in listing order. *)
Definition rglob_all (root : node) : list Path :=
  match fs.stat cwd root VAULT with
  | Some top =>
      d ← iterate_directories [] top;
      match fs.stat cwd root (under_vault d) with
      | Some (Dir es) => (λ e, under_vault (d ++ [fst e])) <$> es
      | _ => []
      end
  | None => []
  end.

(** The first path of a list whose components below the vault hold no
    excluded directory name. *)
Fixpoint first_not_excluded (l : list Path) : option Path :=
  match l with
  | [] => None
  | p :: l' =>
      match pathlib.relative_to p VAULT with
      | Some rel =>
          if negb (any_excluded_dir (pathlib.parts rel)) then Some p
          else first_not_excluded l'
      | None => first_not_excluded l'
      end
  end.

(** [resolve_vault_path] *)
Definition resolve_vault_path (root : node) (note_path : string) : option Path :=
  let target := VAULT // note_path in
  if fs.exists_ cwd root target then Some target
  else first_not_excluded (rglob_name root (pathlib.name (pathlib.parse note_path))).

(** *** Handlers *)

(** [_invalidate_tree_cache] *)
Definition _invalidate_tree_cache (st : State) : State :=
  mkState (st_fs st) (_session_files st) (mkTreeCache None 0).

(** [_get_or_create_sid] *)
Definition _get_or_create_sid (st : State) (req : Request)
  : string * bool * State :=
  match cookie req with
  | Some sid =>
      if Str.nonempty sid && bool_decide (is_Some (_session_files st !! sid))
      then (sid, false, st)
      else
        let sid := fresh_token req in
        (sid, true,
         mkState (st_fs st) (<[sid := ∅]> (_session_files st)) (_tree_cache st))
  | None =>
      let sid := fresh_token req in
      (sid, true,
       mkState (st_fs st) (<[sid := ∅]> (_session_files st)) (_tree_cache st))
  end.

Definition inside_vault (fpath : Path) : bool :=
  bool_decide (is_Some (pathlib.relative_to (pathlib.resolve cwd fpath)
                                            (pathlib.resolve cwd VAULT))).

(** [api_note], method GET *)
Definition api_note_get (st : State) (req : Request) (note_path : string)
  : Response :=
  match resolve_vault_path (st_fs st) note_path with
  | None => Abort 404
  | Some fpath =>
      if negb (fs.is_file cwd (st_fs st) fpath) then Abort 404
      else if negb (inside_vault fpath) then Abort 403
      else
        match fs.read_text cwd (st_fs st) fpath,
              fs.st_mtime cwd (st_fs st) fpath,
              pathlib.relative_to fpath VAULT with
        | Some text, Some mtime, Some rel =>
            let rel_str := pathlib.str rel in
            Ok200 (NoteDoc (render_markdown text) rel_str (pathlib.stem fpath)
                           mtime (_sid_owns st req rel_str))
        | _, _, _ => Uncaught
        end
  end.

(** The first lines of [_api_note_put] after the permission check:
    [body = request.get_json(silent=True) or {}], [body.get("content", "")]
    and the [isinstance] test. *)
Definition body_content (body : PutBody) : Response + string :=
  match body with
  | BodyAbsent => inr ""
  | BodyNotDict => inl Uncaught
  | BodyDict None => inr ""
  | BodyDict (Some None) => inl (Abort 400)
  | BodyDict (Some (Some s)) => inr s
  end.

(** [_api_note_put] *)
Definition _api_note_put (st : State) (req : Request) (note_path : string)
  (body : PutBody) : Response * State :=
  match _safe_vault_path note_path with
  | None => (Abort 404, st)
  | Some fpath =>
      if negb (fs.is_file cwd (st_fs st) fpath) then (Abort 404, st)
      else
        match pathlib.relative_to fpath VAULT with
        | None => (Uncaught, st)
        | Some rel =>
            let rel_str := pathlib.str rel in
            if negb (_sid_owns st req rel_str)
            then (JsonError 403 "You can only edit files you created", st)
            else
              match body_content body with
              | inl failure => (failure, st)
              | inr content =>
                  match fs.write_at (pathlib.parts fpath) content
                                    (wall_clock req) (st_fs st) with
                  | None => (Uncaught, st)
                  | Some root' =>
                      let st' := _invalidate_tree_cache
                        (mkState root' (_session_files st) (_tree_cache st)) in
                      match fs.st_mtime cwd root' fpath with
                      | Some m => (Ok200 (PutOk rel_str m), st')
                      | None => (Uncaught, st')
                      end
                  end
              end
        end
  end.

(** [_api_note_delete] *)
Definition _api_note_delete (st : State) (req : Request) (note_path : string)
  : Response * State :=
  match _safe_vault_path note_path with
  | None => (Abort 404, st)
  | Some fpath =>
      if negb (fs.is_file cwd (st_fs st) fpath) then (Abort 404, st)
      else
        match pathlib.relative_to fpath VAULT with
        | None => (Uncaught, st)
        | Some rel =>
            let rel_str := pathlib.str rel in
            if negb (_sid_owns st req rel_str)
            then (JsonError 403 "You can only delete files you created", st)
            else
              match fs.unlink_at (pathlib.parts fpath) (st_fs st) with
              | None => (Uncaught, st)
              | Some root' =>
                  let sid := default "" (cookie req) in
                  let sessions :=
                    match _session_files st !! sid with
                    | Some owned => <[sid := owned ∖ {[rel_str]}]> (_session_files st)
                    | None => _session_files st
                    end in
                  (Ok200 DeleteOk,
                   _invalidate_tree_cache (mkState root' sessions (_tree_cache st)))
              end
        end
  end.

(** [api_note_raw] *)
Definition api_note_raw (st : State) (req : Request) (note_path : string)
  : Response :=
  match resolve_vault_path (st_fs st) note_path with
  | None => Abort 404
  | Some fpath =>
      if negb (fs.is_file cwd (st_fs st) fpath) then Abort 404
      else if negb (inside_vault fpath) then Abort 403
      else
        match pathlib.relative_to fpath VAULT with
        | None => Uncaught
        | Some rel =>
            let rel_str := pathlib.str rel in
            if negb (_sid_owns st req rel_str) then JsonError 403 "Not editable"
            else
              match fs.read_text cwd (st_fs st) fpath with
              | Some text => Ok200 (RawDoc text rel_str)
              | None => Uncaught
              end
        end
  end.

(** [raw_file] *)
Definition raw_file (st : State) (file_path : string) : Response :=
  match resolve_vault_path (st_fs st) file_path with
  | None => Abort 404
  | Some fpath =>
      if negb (fs.is_file cwd (st_fs st) fpath) then Abort 404
      else if negb (inside_vault fpath) then Abort 403
      else
        match fs.read_text cwd (st_fs st) fpath with
        | Some bytes => Ok200 (FileBytes bytes)
        | None => Uncaught
        end
  end.

(** *** The tree *)

(** The sort key of [build_tree]. *)
Definition tree_key (root : node) (e : Path) : bool * string :=
  (negb (fs.is_dir cwd root e), Str.lower (pathlib.name e)).

(** The path [iterdir] builds for an entry. *)
Definition child (dir : Path) (nm : string) : Path :=
  mkPath (pathlib.root dir) (pathlib.parts dir ++ [nm]).

(** The [for] loop of [build_tree], with [recurse] for the recursive
    call on a subdirectory. *)
Fixpoint tree_loop (recurse : Path → outcome (list TreeNode)) (fsroot : node)
  (rel : Path) (owned : gset string) (entries : list Path)
  : outcome (list TreeNode) :=
  match entries with
  | [] => Done []
  | entry :: rest =>
      let nm := pathlib.name entry in
      if Str.startswith "." nm && bool_decide (nm ∈ EXCLUDED_DIRS)
      then tree_loop recurse fsroot rel owned rest
      else if bool_decide (nm ∈ EXCLUDED_DIRS)
      then tree_loop recurse fsroot rel owned rest
      else if fs.is_file cwd fsroot entry && bool_decide (nm ∈ EXCLUDED_FILES)
      then tree_loop recurse fsroot rel owned rest
      else
        let relative := rel // nm in
        if fs.is_dir cwd fsroot entry then
          match recurse relative with
          | Done children =>
              match tree_loop recurse fsroot rel owned rest with
              | Done items =>
                  Done (Folder nm (pathlib.str relative) children :: items)
              | failure => failure
              end
          | failure => failure
          end
        else
          match tree_loop recurse fsroot rel owned rest with
          | Done items =>
              Done (FileNode nm (pathlib.str relative)
                      (ALLOW_EDIT_ALL || bool_decide (pathlib.str relative ∈ owned))
                    :: items)
          | failure => failure
          end
  end.

(** [build_tree]; [fuel] bounds the depth of the recursion. *)
Fixpoint build_tree (fuel : nat) (fsroot : node) (root rel : Path)
  (owned : gset string) : outcome (list TreeNode) :=
  match fuel with
  | O => OutOfFuel
  | S fuel' =>
      let current := pathlib.joinpath root rel in
      match fs.scandir cwd fsroot current with
      | None => Raised
      | Some es =>
          let entries :=
            sorted (λ a b, key_ltb (tree_key fsroot a) (tree_key fsroot b))
                   ((λ e, child current e.1) <$> es) in
          tree_loop (λ relative, build_tree fuel' fsroot root relative owned)
                    fsroot rel owned entries
      end
  end.

(** [api_tree] *)
Definition api_tree (fuel : nat) (st : State) (req : Request)
  : outcome (list TreeNode) :=
  let sid := default "" (cookie req) in
  let owned := default ∅ (_session_files st !! sid) in
  build_tree fuel (st_fs st) VAULT (mkPath "" []) owned.

(** *** The walker and the fingerprint *)

(** The [for entry in entries] loop of [_walk_vault] in directory [d]:
    the directories it pushes, last pushed first, and the pairs it
    yields.  An entry carries its own kind and modification time, as an
    [os.DirEntry] does. *)
Fixpoint scan_entries (root d : Path) (entries : list (string * node))
  (pushed : list Path) (yielded : list (string * string))
  : outcome (list Path * list (string * string)) :=
  match entries with
  | [] => Done (pushed, yielded)
  | (nm, Dir _) :: rest =>
      if bool_decide (nm ∈ EXCLUDED_DIRS)
      then scan_entries root d rest pushed yielded
      else scan_entries root d rest ((d // nm) :: pushed) yielded
  | (nm, File _ mtime) :: rest =>
      if bool_decide (nm ∈ EXCLUDED_FILES)
      then scan_entries root d rest pushed yielded
      else
        match pathlib.relative_to (d // nm) root with
        | Some rel =>
            scan_entries root d rest pushed (yielded ++ [(pathlib.str rel, mtime)])
        | None => Raised
        end
  end.

(** The [while stack] loop; the stack is kept with its top first, and
    [fuel] bounds the number of directories visited. *)
Fixpoint walk_loop (fuel : nat) (fsroot : node) (root : Path) (stack : list Path)
  : outcome (list (string * string)) :=
  match stack with
  | [] => Done []
  | d :: stack' =>
      match fuel with
      | O => OutOfFuel
      | S fuel' =>
          match fs.scandir cwd fsroot d with
          | None => walk_loop fuel' fsroot root stack'
          | Some es =>
              match scan_entries root d (sorted (λ a b, Str.ltb a.1 b.1) es) [] [] with
              | Done (pushed, yielded) =>
                  match walk_loop fuel' fsroot root (pushed ++ stack') with
                  | Done more => Done (yielded ++ more)
                  | failure => failure
                  end
              | Raised => Raised
              | OutOfFuel => OutOfFuel
              end
          end
      end
  end.

(** [_walk_vault]: the pairs [(rel, mtime)] in the order they are
    yielded. *)
Definition _walk_vault (fuel : nat) (fsroot : node) (root : Path)
  : outcome (list (string * string)) :=
  walk_loop fuel fsroot root [root].

(** What [_get_tree_hash] feeds to the hash for one pair. *)
Definition hash_chunk (entry : string * string) : string :=
  entry.1 +:+ ":" +:+ entry.2.

(** The bytes hashed for a whole walk. *)
Definition hash_input (walked : list (string * string)) : string :=
  String.concat "" (hash_chunk <$> walked).

(** [_get_tree_hash] *)
Definition _get_tree_hash (fuel : nat) (st : State) (req : Request)
  : outcome (string * State) :=
  let now := monotonic req in
  match cache_hash (_tree_cache st) with
  | Some cached =>
      if (now - cache_ts (_tree_cache st) <? _TREE_CACHE_TTL)%Z
      then Done (cached, st)
      else
        match _walk_vault fuel (st_fs st) VAULT with
        | Done walked =>
            let digest := MD5.hexdigest (hash_input walked) in
            Done (digest,
                  mkState (st_fs st) (_session_files st) (mkTreeCache (Some digest) now))
        | Raised => Raised
        | OutOfFuel => OutOfFuel
        end
  | None =>
      match _walk_vault fuel (st_fs st) VAULT with
      | Done walked =>
          let digest := MD5.hexdigest (hash_input walked) in
          Done (digest,
                mkState (st_fs st) (_session_files st) (mkTreeCache (Some digest) now))
      | Raised => Raised
      | OutOfFuel => OutOfFuel
      end
  end.

(** *** The graph

    [api_graph] and [generate_graph] consist of the same loops over
    different file lists; each loop is a function here, used by both. *)

Definition group_of (ext : string) : Group :=
  if String.eqb ext ".md" then note
  else if String.eqb ext ".pdf" then pdf
  else if is_image_ext ext then image
  else other.

(** What the first loop builds up: [nodes], [edges], [folders_seen]. *)
Definition Collected : Type :=
  list (string * GraphNode) * list Edge * gset string.

(** The [while str(parent) != "."] loop, for a relative [parent] given by
    its components in reverse; every round drops the last component. *)
Fixpoint ancestors_loop (rev_parent : list string) (child_path : string)
  (acc : Collected) : Collected :=
  match rev_parent with
  | [] => acc
  | _ :: up =>
      let parent := mkPath "" (List.rev rev_parent) in
      let folder_str := pathlib.str parent in
      if String.eqb folder_str "." then acc
      else
        let '(nodes, edges, folders_seen) := acc in
        let '(nodes, folders_seen) :=
          if bool_decide (folder_str ∈ folders_seen) then (nodes, folders_seen)
          else
            (dict_set folder_str
               (mkGraphNode folder_str (pathlib.name parent) folder_str folder None)
               nodes,
             {[folder_str]} ∪ folders_seen) in
        ancestors_loop up folder_str
          (nodes, edges ++ [mkEdge folder_str child_path folder_edge], folders_seen)
  end.

(** The body of the first loop for the file [p], [rel] below the vault. *)
Definition add_file (p rel : Path) (acc : Collected) : Collected :=
  let rel_str := pathlib.str rel in
  let ext := Str.lower (pathlib.suffix p) in
  let group := group_of ext in
  let display := if String.eqb ext ".md" then pathlib.stem p else pathlib.name p in
  let '(nodes, edges, folders_seen) := acc in
  let nodes := dict_set rel_str (mkGraphNode rel_str display rel_str group None) nodes in
  ancestors_loop (List.rev (pathlib.parts (pathlib.parent rel))) rel_str
    (nodes, edges, folders_seen).

(** The resolution of one wikilink target. *)
Definition resolve_target (root : node) (target : string) : option string :=
  if fs.exists_ cwd root (VAULT // target) then Some target
  else if fs.exists_ cwd root (VAULT // (target +:+ ".md")) then Some (target +:+ ".md")
  else
    let tname := pathlib.name (pathlib.parse target) in
    let tname :=
      if negb (Str.nonempty (pathlib.suffix (pathlib.parse tname)))
      then tname +:+ ".md" else tname in
    match first_not_excluded (rglob_name root tname) with
    | Some candidate => pathlib.str <$> pathlib.relative_to candidate VAULT
    | None => None
    end.

(** The link edges of one note: the inner [for m in finditer] loop. *)
Definition note_links (root : node) (nodes : list (string * GraphNode))
  (rel_str text : string) : list Edge :=
  omap (λ m : string * option string,
    match resolve_target root m.1 with
    | Some target_path =>
        if Str.nonempty target_path && dict_has target_path nodes
           && negb (String.eqb target_path rel_str)
        then Some (mkEdge rel_str target_path link_edge)
        else None
    | None => None
    end) (finditer_from match_wikilink 0 text).

(** The second loop, over a snapshot [items] of the dictionary. *)
Definition link_edges (root : node) (nodes : list (string * GraphNode)) : list Edge :=
  kv ← nodes;
  if bool_decide (node_group kv.2 = note) then
    match fs.read_text cwd root (VAULT // kv.1) with
    | Some text => note_links root nodes kv.1 text
    | None => []
    end
  else [].

(** The third loop: the first edge of every [(source, target)] pair. *)
Fixpoint unique_loop (edges : list Edge) (edge_set : gset (string * string))
  (unique_edges : list Edge) : list Edge :=
  match edges with
  | [] => unique_edges
  | e :: rest =>
      let key := (source e, target e) in
      if bool_decide (key ∈ edge_set) then unique_loop rest edge_set unique_edges
      else unique_loop rest ({[key]} ∪ edge_set) (unique_edges ++ [e])
  end.

(** The fourth loop: [link_counts]. *)
Definition bump (k : string) (counts : gmap string nat) : gmap string nat :=
  <[k := (default 0 (counts !! k) + 1)%nat]> counts.

Definition count_links (edges : list Edge) : gmap string nat :=
  fold_left (λ counts e, bump (target e) (bump (source e) counts)) edges ∅.

(** The last loop: [n["links"] = link_counts.get(n["id"], 0)]. *)
Definition set_links (counts : gmap string nat) (n : GraphNode) : GraphNode :=
  mkGraphNode (node_id n) (node_display n) (node_path n) (node_group n)
              (Some (default 0 (counts !! node_id n))).

(** The edges before deduplication, in the order they were appended. *)
Definition raw_edges (root : node) (c : Collected) : list Edge :=
  c.1.2 ++ link_edges root c.1.1.

(** Everything after the first loop. *)
Definition finish_graph (root : node) (c : Collected) : Graph :=
  let edges := unique_loop (raw_edges root c) ∅ [] in
  let link_counts := count_links edges in
  mkGraph (set_links link_counts <$> c.1.1.*2) edges.

(** The first loop of [api_graph]. *)
Definition graph_files (root : node) : Collected :=
  fold_left (λ acc p,
    if negb (fs.is_file cwd root p) then acc
    else
      match pathlib.relative_to p VAULT with
      | None => acc
      | Some rel =>
          if any_excluded_dir (pathlib.parts rel) then acc
          else if bool_decide (pathlib.name p ∈ EXCLUDED_FILES) then acc
          else add_file p rel acc
      end)
    (sorted path_ltb (rglob_all root)) ([], [], ∅).

(** [api_graph] *)
Definition api_graph (st : State) : Graph :=
  finish_graph (st_fs st) (graph_files (st_fs st)).

(** *** Uploads *)

(** [f"{stem}_{counter}{ext}"] *)
Definition new_name (stem : string) (counter : nat) (ext : string) : string :=
  stem +:+ "_" +:+ Str.of_nat counter +:+ ext.

(** The [while fpath.exists()] loop of [api_files_upload]: the path to
    write to, or the response that ends the request.  [fuel] bounds the
    number of names tried. *)
Fixpoint upload_loop (fuel : nat) (root : node) (folder : string)
  (stem ext : string) (fpath : Path) (counter : nat)
  : outcome (Response + Path) :=
  if negb (fs.exists_ cwd root fpath) then Done (inr fpath)
  else
    match fuel with
    | O => OutOfFuel
    | S fuel' =>
        let new_name := new_name stem counter ext in
        let dest_rel :=
          if Str.nonempty folder
          then (λ rel, pathlib.str (rel // new_name))
                 <$> pathlib.relative_to (pathlib.parent fpath) VAULT
          else Some new_name in
        match dest_rel with
        | None => Done (inl Uncaught)
        | Some dest_rel =>
            match _safe_vault_path dest_rel with
            | None => Done (inl (JsonError 409 "Conflict"))
            | Some fpath' =>
                upload_loop fuel' root folder stem ext fpath' (S counter)
            end
        end
    end.

(** The destination an upload asks for: [dest_rel] before the sandbox, or
    the response that rejects the request. *)
Definition upload_destination (filename folder : string) : Response + string :=
  if Str.nonempty folder then
    let folder_parts :=
      secure_filename <$>
        List.filter Str.nonempty (Str.split "/" (Str.replace_char "\" "/" folder)) in
    if negb (forallb Str.nonempty folder_parts)
    then inl (JsonError 400 "Invalid folder")
    else inr (pathlib.str (pathlib.of_segments folder_parts // filename))
  else inr filename.

(** [api_files_upload]; [file] is the uploaded file's name and content,
    [folder_field] the form field ["folder"]. *)
Definition api_files_upload (fuel : nat) (st : State) (req : Request)
  (file : option (string * string)) (folder_field : option string)
  : outcome (Response * State) :=
  if negb ALLOW_FILE_CREATION
  then Done (JsonError 403 "File uploads are disabled", st)
  else
    match file with
    | None => Done (JsonError 400 "No file provided", st)
    | Some (f_filename, content) =>
        if negb (Str.nonempty f_filename) then Done (JsonError 400 "No filename", st)
        else
          let filename := secure_filename f_filename in
          if negb (Str.nonempty filename)
          then Done (JsonError 400 "Invalid filename", st)
          else
            let ext := Str.lower (pathlib.suffix (pathlib.parse filename)) in
            if negb (bool_decide (ext ∈ ALLOWED_UPLOAD_EXTENSIONS))
            then Done (JsonError 400 ("File type " +:+ ext +:+ " not allowed"), st)
            else
              let folder := Str.strip (default "" folder_field) in
              match upload_destination filename folder with
              | inl failure => Done (failure, st)
              | inr dest_rel =>
                  match _safe_vault_path dest_rel with
                  | None => Done (JsonError 400 "Forbidden path", st)
                  | Some fpath =>
                      match upload_loop fuel (st_fs st) folder
                              (pathlib.stem (pathlib.parse filename)) ext fpath 1 with
                      | OutOfFuel => OutOfFuel
                      | Raised => Raised
                      | Done (inl failure) => Done (failure, st)
                      | Done (inr fpath) =>
                          match fs.mkdir_p (pathlib.parts (pathlib.parent fpath))
                                           (st_fs st) with
                          | None => Done (Uncaught, st)
                          | Some root1 =>
                              match fs.write_at (pathlib.parts fpath) content
                                                (wall_clock req) root1 with
                              | None =>
                                  Done (Uncaught,
                                        mkState root1 (_session_files st) (_tree_cache st))
                              | Some root2 =>
                                  let st2 :=
                                    mkState root2 (_session_files st) (_tree_cache st) in
                                  match pathlib.relative_to fpath VAULT with
                                  | None => Done (Uncaught, st2)
                                  | Some rel =>
                                      let rel_str := pathlib.str rel in
                                      let '(sid, needs_set, st3) :=
                                        _get_or_create_sid st2 req in
                                      let owned :=
                                        default ∅ (_session_files st3 !! sid) in
                                      let st4 :=
                                        mkState (st_fs st3)
                                          (<[sid := {[rel_str]} ∪ owned]> (_session_files st3))
                                          (_tree_cache st3) in
                                      Done (Ok200 (CreatedOk rel_str
                                              (if needs_set then Some sid else None)),
                                            _invalidate_tree_cache st4)
                                  end
                              end
                          end
                      end
                  end
              end
    end.

(** ** build_static.py *)

(** [collect_files] *)
Definition collect_files (root : node) : list Path :=
  omap (λ p,
    if negb (fs.is_file cwd root p) then None
    else
      match pathlib.relative_to p VAULT with
      | None => None
      | Some rel =>
          if any_excluded_dir (pathlib.parts rel) then None
          else if bool_decide (pathlib.name p ∈ EXCLUDED_FILES) then None
          else if Str.startswith "_site" (pathlib.str rel) then None
          else if String.eqb (pathlib.name p) "build_static.py" then None
          else Some rel
      end)
    (sorted path_ltb (rglob_all root)).

(** The names [generate_tree] drops from the tree. *)
Definition dropped (item : TreeNode) : bool :=
  existsb (String.eqb (node_name item)) ["_site"; "build_static.py"; ".github"].

(** The inner [clean] of [generate_tree], on one item and on a list. *)
Fixpoint clean_item (item : TreeNode) : TreeNode :=
  match item with
  | Folder nm p children =>
      Folder nm p
        ((fix clean (items : list TreeNode) : list TreeNode :=
            match items with
            | [] => []
            | x :: rest =>
                if dropped x then clean rest else clean_item x :: clean rest
            end) children)
  | FileNode _ _ _ => item
  end.

Fixpoint clean_tree (items : list TreeNode) : list TreeNode :=
  match items with
  | [] => []
  | x :: rest =>
      if dropped x then clean_tree rest else clean_item x :: clean_tree rest
  end.

(** [generate_tree] *)
Definition generate_tree (fuel : nat) (root : node) : outcome (list TreeNode) :=
  match build_tree fuel root VAULT (mkPath "" []) ∅ with
  | Done tree => Done (clean_tree tree)
  | failure => failure
  end.

(** The first loop of [generate_graph]. *)
Definition graph_of_files (files : list Path) : Collected :=
  fold_left (λ acc rel, add_file (pathlib.joinpath VAULT rel) rel acc)
            files ([], [], ∅).

(** [generate_graph], for the relative paths [collect_files] returns; on
    an absolute path the ancestor loop of the source would not end, which
    is [None] here. *)
Definition generate_graph (root : node) (files : list Path) : option Graph :=
  if forallb (λ rel, negb (Str.nonempty (pathlib.root rel))) files
  then Some (finish_graph root (graph_of_files files))
  else None.

(** *** Creating a note, polling *)

(** The first lines of [api_files_new] after the configuration test:
    [body = request.get_json(silent=True) or {}] and
    [body.get("path", "").strip()], with the body told apart by the key
    ["path"]; a value that is no string has no [strip]. *)
Definition new_path (body : PutBody) : Response + string :=
  match body with
  | BodyAbsent => inr ""
  | BodyNotDict => inl Uncaught
  | BodyDict None => inr ""
  | BodyDict (Some None) => inl Uncaught
  | BodyDict (Some (Some s)) => inr (Str.strip s)
  end.

(** [api_files_new] *)
Definition api_files_new (st : State) (req : Request) (body : PutBody)
  : Response * State :=
  if negb ALLOW_FILE_CREATION
  then (JsonError 403 "File creation is disabled", st)
  else
    match new_path body with
    | inl failure => (failure, st)
    | inr raw_path =>
        if negb (Str.nonempty raw_path) then (JsonError 400 "Path is required", st)
        else
          let raw_path :=
            if negb (Str.endswith ".md" raw_path) then raw_path +:+ ".md"
            else raw_path in
          let parts :=
            List.filter Str.nonempty
              (Str.split "/" (Str.replace_char "\" "/" raw_path)) in
          let clean_parts := secure_filename <$> parts in
          if negb (forallb Str.nonempty clean_parts)
          then (JsonError 400 "Invalid path", st)
          else
            let clean_path := pathlib.str (pathlib.of_segments clean_parts) in
            match _safe_vault_path clean_path with
            | None => (JsonError 400 "Invalid or forbidden path", st)
            | Some fpath =>
                if fs.exists_ cwd (st_fs st) fpath
                then (JsonError 409 "File already exists", st)
                else
                  match fs.mkdir_p (pathlib.parts (pathlib.parent fpath))
                                   (st_fs st) with
                  | None => (Uncaught, st)
                  | Some root1 =>
                      match fs.write_at (pathlib.parts fpath) ""
                                        (wall_clock req) root1 with
                      | None =>
                          (Uncaught,
                           mkState root1 (_session_files st) (_tree_cache st))
                      | Some root2 =>
                          let st2 :=
                            mkState root2 (_session_files st) (_tree_cache st) in
                          match pathlib.relative_to fpath VAULT with
                          | None => (Uncaught, st2)
                          | Some rel =>
                              let rel_str := pathlib.str rel in
                              let '(sid, needs_set, st3) :=
                                _get_or_create_sid st2 req in
                              let owned :=
                                default ∅ (_session_files st3 !! sid) in
                              let st4 :=
                                mkState (st_fs st3)
                                  (<[sid := {[rel_str]} ∪ owned]> (_session_files st3))
                                  (_tree_cache st3) in
                              (Ok200 (CreatedOk rel_str
                                        (if needs_set then Some sid else None)),
                               _invalidate_tree_cache st4)
                          end
                      end
                  end
            end
    end.

(** [api_check]: the fields ["note_mtime"] and ["tree_hash"] of the
    answer; [note] is the query argument ["note"]. *)
Definition api_check (fuel : nat) (st : State) (req : Request)
  (note : option string) : outcome (option string * string * State) :=
  let note_mtime :=
    match note with
    | Some note_path =>
        if Str.nonempty note_path then
          match resolve_vault_path (st_fs st) note_path with
          | Some fpath =>
              if fs.is_file cwd (st_fs st) fpath
              then fs.st_mtime cwd (st_fs st) fpath
              else None
          | None => None
          end
        else None
    | None => None
    end in
  match _get_tree_hash fuel st req with
  | Done (tree_hash, st') => Done (note_mtime, tree_hash, st')
  | Raised => Raised
  | OutOfFuel => OutOfFuel
  end.

(** *** The archive *)




(** *** The exported note documents *)






(** ** Predicates used in the statements *)

(** A list of components is clean when [..] does not occur in it. *)
Definition clean (l : list string) : Prop := Forall (λ x, x ≠ "..") l.

(** What the sandbox lets through: the vault root or a descendant of it,
    reached by components [rel] none of which is an excluded directory
    name, and whose last component is no excluded file name. *)
Definition admissible (c : Path) : Prop :=
  pathlib.root c = "/" ∧
  ∃ rel, pathlib.parts c = pathlib.parts VAULT ++ rel ∧ clean rel ∧
         Forall (λ x, x ∉ EXCLUDED_DIRS) rel ∧
         pathlib.name c ∉ EXCLUDED_FILES.

(** The ownership set of the caller's session, as [api_tree] reads it. *)
Definition owned_by (st : State) (req : Request) : gset string :=
  default ∅ (_session_files st !! default "" (cookie req)).




(** No entry name is empty, [.], [..] or holds a slash: what a
    filesystem guarantees for the names in a directory. *)
Definition valid_name (nm : string) : bool :=
  Str.nonempty nm && negb (String.eqb nm ".") && negb (String.eqb nm "..")
  && negb (Str.contains "/" nm).



(** The pair an edge is identified by. *)
Definition edge_key (e : Edge) : string * string := (source e, target e).



(** The wording of the wikilink pass: the extension of a target, the href
    and the display text of the link it becomes. *)
Definition extension (target : string) : string :=
  pathlib.suffix (pathlib.parse target).

Definition wikilink_href (target : string) : string :=
  let ext := Str.lower (extension target) in
  if String.eqb ext ".pdf" then "#pdf:" +:+ target
  else if is_image_ext ext then "#img:" +:+ target
  else if String.eqb (extension target) "" then "#note:" +:+ target +:+ ".md"
  else "#note:" +:+ target.

Definition wikilink_display (target : string) (alias : option string) : string :=
  match alias with
  | Some a => if String.eqb a "" then target else a
  | None => target
  end.

(** Every character of [s] satisfies [f]. *)
Fixpoint str_forall (f : ascii → bool) (s : string) : bool :=
  match s with
  | EmptyString => true
  | String c s' => f c && str_forall f s'
  end.

(** What the syntax can carry as a target and as an alias. *)
Definition target_ok (t : string) : bool :=
  Str.nonempty t && str_forall (λ c, negb (is_close_or_bar c)) t.
Definition alias_ok (a : string) : bool :=
  str_forall (λ c, negb (is_close c)) a.

(** What [_get_tree_hash] computes when it does not answer from the
    cache. *)
Definition fingerprint (fuel : nat) (fsroot : node) : outcome string :=
  match _walk_vault fuel fsroot VAULT with
  | Done walked => Done (MD5.hexdigest (hash_input walked))
  | Raised => Raised
  | OutOfFuel => OutOfFuel
  end.

(** The cache answers: it holds a value younger than the time to live. *)
Definition cache_fresh (st : State) (req : Request) : bool :=
  match cache_hash (_tree_cache st) with
  | Some _ => (monotonic req - cache_ts (_tree_cache st) <? _TREE_CACHE_TTL)%Z
  | None => false
  end.


(** A directory the walker can reach: below the vault, through valid
    names none of which is an excluded directory name. *)
Definition walkable (d : Path) : Prop :=
  pathlib.root d = "/" ∧
  ∃ l, pathlib.parts d = pathlib.parts VAULT ++ l ∧
       Forall (λ x, valid_name x = true ∧ x ∉ EXCLUDED_DIRS) l.



(** No directory lists a name twice. *)
Fixpoint unique_names (n : node) : bool :=
  match n with
  | File _ _ => true
  | Dir es =>
      bool_decide (NoDup es.*1) &&
      (fix go (es : list (string * node)) : bool :=
         match es with
         | [] => true
         | (_, c) :: es' => unique_names c && go es'
         end) es
  end.



(** The path of the name [nm] in the directory [r] below the vault. *)
Definition candidate (r : list string) (nm : string) : Path :=
  mkPath "/" (pathlib.parts VAULT ++ r ++ [nm]).

(** The two filters that only [collect_files] has leave the file [p]
    alone: it is not a file the server lists, or its path below the vault
    does not begin with the characters [_site] and its name is not
    [build_static.py]. *)
Definition idle_at (root : node) (p : Path) : bool :=
  match pathlib.relative_to p VAULT with
  | None => true
  | Some rel =>
      negb (fs.is_file cwd root p)
      || any_excluded_dir (pathlib.parts rel)
      || bool_decide (pathlib.name p ∈ EXCLUDED_FILES)
      || (negb (Str.startswith "_site" (pathlib.str rel))
          && negb (String.eqb (pathlib.name p) "build_static.py"))
  end.

Definition static_filters_idle (root : node) : bool :=
  forallb (idle_at root) (rglob_all root).

(** The session a created file is booked on: the one of the cookie when
    the server knows it, a new one otherwise, whose id the answer then
    carries. *)
Definition creator (req : Request) (set_cookie : option string) : string :=
  default (default "" (cookie req)) set_cookie.

(** Every node of a tree, at any depth, satisfies [P]. *)
Inductive tree_all (P : TreeNode → Prop) : list TreeNode → Prop :=
  | tree_all_level items :
      Forall P items →
      (∀ nm p children, Folder nm p children ∈ items → tree_all P children) →
      tree_all P items.

(** What the tree builder promises about one node for the ownership set
    [owned]: its name is no excluded directory name, and a file is marked
    editable exactly when the edit-all switch is on or its path is owned. *)
Definition node_flags (owned : gset string) (n : TreeNode) : Prop :=
  (node_name n ∉ EXCLUDED_DIRS) ∧
  match n with
  | FileNode _ p e => e = ALLOW_EDIT_ALL || bool_decide (p ∈ owned)
  | Folder _ _ _ => True
  end.






(** What the first loop of the graph builder keeps: the keys of [nodes]
    are pairwise distinct, every node is filed under its id, which is also
    its path, both ends of every edge are keys, and so is every folder
    seen. *)
Definition collected_ok (c : Collected) : Prop :=
  NoDup c.1.1.*1 ∧
  Forall (λ kv, node_id kv.2 = kv.1 ∧ node_path kv.2 = kv.1) c.1.1 ∧
  Forall (λ e, source e ∈ c.1.1.*1 ∧ target e ∈ c.1.1.*1) c.1.2 ∧
  (∀ k, k ∈ c.2 → k ∈ c.1.1.*1).

(** The number of edges at a node. *)
Definition degree (edges : list Edge) (k : string) : nat :=
  length (List.filter (λ e, String.eqb (source e) k) edges)
  + length (List.filter (λ e, String.eqb (target e) k) edges).

(** A graph document that hangs together: the node ids are pairwise
    distinct, the path of a node is its id, both ends of every edge are
    ids of nodes, and the link count of a node is the number of edges at
    it. *)
Definition graph_ok (G : Graph) : Prop :=
  NoDup (node_id <$> nodes G) ∧
  Forall (λ n, node_path n = node_id n ∧
               node_links n = Some (degree (edges G) (node_id n))) (nodes G) ∧
  Forall (λ e, source e ∈ node_id <$> nodes G ∧
               target e ∈ node_id <$> nodes G) (edges G).

(** The character [c] does not occur in [s]. *)
Definition lacks (c : ascii) (s : string) : bool :=
  str_forall (λ x, negb (Ascii.eqb x c)) s.

(** Text that holds neither an opening bracket nor an exclamation mark;
    targets and aliases that hold neither, besides what the syntax
    forbids them. *)
Definition plain_text (s : string) : bool := lacks "[" s && lacks "!" s.
Definition simple_target (t : string) : bool :=
  target_ok t && lacks "[" t && lacks "!" t.
Definition simple_alias (a : string) : bool := alias_ok a && lacks "!" a.

(** No two opening brackets stand side by side in [s], and [s] does not
    end with one. *)
Fixpoint brackets_apart (s : string) : bool :=
  match s with
  | EmptyString => true
  | String c s' =>
      (if Ascii.eqb c "["
       then match s' with
            | EmptyString => false
            | String c' _ => negb (Ascii.eqb c' "[")
            end
       else true) && brackets_apart s'
  end.


(** The directory reached from [root] by the components [acc] (last
    first), none of them [..], with the directories passed on the way
    (innermost first). *)
Inductive reach (root : node) : list string → list node → node → Prop :=
| reach_root : reach root [] [] root
| reach_step acc anc es x c :
    reach root acc anc (Dir es) → x ≠ ".." → fs.get_entry x es = Some c →
    reach root (x :: acc) (Dir es :: anc) c.

(** * Properties *)

(** Automation that inspects the whole context is run after the section
    variables a goal does not mention are out of the way. *)
Ltac forget_globals :=
  try clear secure_filename; try clear markdown_html; try clear script_file;
  try clear cfg; try clear cwd.

(** ** Strings and paths *)

Lemma nonempty_true (s : string) : Str.nonempty s = true ↔ s ≠ "".
Proof. destruct s; simpl; split; congruence. Qed.

Lemma nonempty_false (s : string) : Str.nonempty s = false ↔ s = "".
Proof. destruct s; simpl; split; congruence. Qed.

Lemma strip_prefix_app (pre l r : list string) :
  pathlib.strip_prefix pre l = Some r ↔ l = pre ++ r.
Proof.
  revert l. induction pre as [|x pre IH]; intros l; simpl.
  - split; congruence.
  - destruct l as [|y l]; [split; discriminate|].
    destruct (String.eqb_spec x y) as [->|Hne].
    + rewrite IH. split; congruence.
    + split; [discriminate|]. intros [= ? ?]. congruence.
Qed.

Lemma normalize_clean_acc (acc l : list string) :
  clean acc → clean (pathlib.normalize acc l).
Proof.
  revert acc. induction l as [|x l IH]; intros acc Hacc; simpl.
  - unfold clean. by apply Forall_rev.
  - destruct (String.eqb_spec x "..") as [->|Hne].
    + apply IH. destruct acc; simpl; [constructor|]. by inversion Hacc.
    + apply IH. by constructor.
Qed.

Lemma normalize_clean (l : list string) : clean (pathlib.normalize [] l).
Proof. apply normalize_clean_acc. constructor. Qed.

Lemma normalize_id_acc (acc l : list string) :
  clean l → pathlib.normalize acc l = List.rev acc ++ l.
Proof.
  revert acc. induction l as [|x l IH]; intros acc Hl; simpl.
  - by rewrite app_nil_r.
  - inversion Hl as [|? ? Hx Hl']; subst.
    destruct (String.eqb_spec x ".."); [done|].
    rewrite IH by done. simpl. by rewrite <- app_assoc.
Qed.

Lemma normalize_app (acc l1 l2 : list string) :
  pathlib.normalize acc (l1 ++ l2)
  = pathlib.normalize (List.rev (pathlib.normalize acc l1)) l2.
Proof.
  revert acc. induction l1 as [|x l1 IH]; intros acc; simpl.
  - by rewrite rev_involutive.
  - destruct (x =? "..")%string; apply IH.
Qed.

Lemma clean_removelast (l : list string) : clean l → clean (removelast l).
Proof.
  induction 1 as [|x l Hx Hl IH]; simpl; [constructor|].
  destruct l; [constructor|]. by constructor.
Qed.

Lemma VAULT_root : pathlib.root VAULT = "/".
Proof. reflexivity. Qed.

Lemma VAULT_clean : clean (pathlib.parts VAULT).
Proof. apply clean_removelast, normalize_clean. Qed.

(** [VAULT] is resolved already: [VAULT.resolve()] is [VAULT]. *)
Lemma VAULT_resolved : pathlib.resolve cwd VAULT = VAULT.
Proof.
  unfold pathlib.resolve. rewrite VAULT_root. simpl.
  rewrite normalize_id_acc by apply VAULT_clean.
  reflexivity.
Qed.

(** From here on [VAULT] is used through the three facts above. *)
Opaque VAULT.

Lemma resolve_root (p : Path) : pathlib.root (pathlib.resolve cwd p) = "/".
Proof. reflexivity. Qed.

Lemma any_excluded_dir_false (l : list string) :
  any_excluded_dir l = false ↔ Forall (λ x, x ∉ EXCLUDED_DIRS) l.
Proof.
  unfold any_excluded_dir. induction l as [|x l IH]; simpl.
  - split; [constructor|done].
  - rewrite orb_false_iff, IH, bool_decide_eq_false, Forall_cons. done.
Qed.

Lemma resolve_clean (p : Path) : clean (pathlib.parts (pathlib.resolve cwd p)).
Proof. apply normalize_clean. Qed.

(** What the sandbox accepts, and what it returns then. *)
Lemma safe_vault_path_iff (p : string) (c : Path) :
  _safe_vault_path p = Some c ↔
  p ≠ "" ∧ c = pathlib.resolve cwd (VAULT // p) ∧ admissible c.
Proof.
  unfold _safe_vault_path, admissible.
  destruct (Str.nonempty p) eqn:Hp; cbn [negb].
  2:{ apply nonempty_false in Hp. split; [discriminate|]. by intros [? _]. }
  apply nonempty_true in Hp.
  rewrite VAULT_resolved. unfold pathlib.relative_to.
  rewrite resolve_root, VAULT_root, String.eqb_refl.
  set (cand := pathlib.resolve cwd (VAULT // p)).
  destruct (pathlib.strip_prefix (pathlib.parts VAULT) (pathlib.parts cand))
    as [rel|] eqn:Hrel; cbn [fmap option_fmap option_map pathlib.parts].
  - apply strip_prefix_app in Hrel.
    assert (Hcl : clean rel).
    { pose proof (resolve_clean (VAULT // p)) as Hc. fold cand in Hc.
      rewrite Hrel in Hc. unfold clean in *.
      by apply Forall_app in Hc as [_ ?]. }
    destruct (any_excluded_dir rel) eqn:Hex.
    + split; [discriminate|]. intros (_ & -> & _ & rel' & Hrel' & _ & Hno & _).
      rewrite Hrel in Hrel'. apply app_inv_head in Hrel'. subst rel'.
      apply any_excluded_dir_false in Hno. congruence.
    + apply any_excluded_dir_false in Hex.
      case_bool_decide as Hnm.
      * split; [discriminate|]. intros (_ & -> & _ & rel' & _ & _ & _ & Hn).
        done.
      * split.
        -- intros [= <-]. repeat split; try done. by exists rel.
        -- intros (_ & -> & _). done.
  - split; [discriminate|]. intros (_ & -> & _ & rel & Hrel' & _).
    apply strip_prefix_app in Hrel'. fold cand in Hrel'. congruence.
Qed.

(** ** C1: the path sandbox *)


(** ** Filesystem updates *)

Lemma get_set_entry_eq x c es : fs.get_entry x (fs.set_entry x c es) = Some c.
Proof.
  induction es as [|[y n] es IH]; simpl.
  - by rewrite String.eqb_refl.
  - destruct (String.eqb_spec y x) as [->|Hne]; simpl.
    + by rewrite String.eqb_refl.
    + destruct (String.eqb_spec y x); [done|]. exact IH.
Qed.

Lemma get_set_entry_ne x y c es :
  x ≠ y → fs.get_entry y (fs.set_entry x c es) = fs.get_entry y es.
Proof.
  intros Hxy. induction es as [|[z n] es IH]; simpl.
  - destruct (String.eqb_spec x y); [done|]. done.
  - destruct (String.eqb_spec z x) as [->|Hne]; simpl.
    + destruct (String.eqb_spec x y); [done|]. done.
    + destruct (String.eqb_spec z y); [done|]. exact IH.
Qed.

Lemma get_entry_app_None x es es' :
  fs.get_entry x es = None → fs.get_entry x (es ++ es') = fs.get_entry x es'.
Proof.
  induction es as [|[y n] es IH]; simpl; [done|].
  destruct (String.eqb y x); [done|]. exact IH.
Qed.

Lemma get_entry_app_Some x es es' c :
  fs.get_entry x es = Some c → fs.get_entry x (es ++ es') = Some c.
Proof.
  induction es as [|[y n] es IH]; simpl; [done|].
  destruct (String.eqb y x); [done|]. exact IH.
Qed.

(** Overwriting a regular file succeeds and the file then holds the new
    content and modification time. *)
Lemma write_at_existing l c m :
  clean l → ∀ n anc c0 m0,
  fs.walk anc n l = Some (File c0 m0) →
  ∃ n', fs.write_at l c m n = Some n' ∧
        ∀ anc', fs.walk anc' n' l = Some (File c m).
Proof.
  induction 1 as [|x l Hx Hl IH]; intros n anc c0 m0 Hw; simpl in *.
  - destruct n; [|done]. eauto.
  - destruct n as [|es]; [done|].
    destruct (String.eqb_spec x ".."); [done|].
    destruct (fs.get_entry x es) as [ch|] eqn:Hch; [|done].
    destruct (IH _ _ _ _ Hw) as (ch' & Hwr & Hrd).
    rewrite Hwr. eexists; split; [done|]. intros anc'. simpl.
    destruct (String.eqb_spec x ".."); [done|].
    rewrite get_set_entry_eq. apply Hrd.
Qed.

(** Removing a regular file succeeds. *)
Lemma unlink_at_existing l :
  clean l → ∀ n anc c0 m0,
  fs.walk anc n l = Some (File c0 m0) → l ≠ [] →
  ∃ n', fs.unlink_at l n = Some n'.
Proof.
  induction 1 as [|x l Hx Hl IH]; intros n anc c0 m0 Hw Hne; [done|].
  simpl in Hw. destruct n as [|es]; [done|].
  destruct (String.eqb_spec x ".."); [done|].
  destruct (fs.get_entry x es) as [ch|] eqn:Hch; [|done].
  destruct l as [|y l].
  - simpl in *. injection Hw as ->. rewrite Hch. eauto.
  - destruct (IH _ _ _ _ Hw) as (ch' & Hun); [done|].
    change (fs.unlink_at (x :: y :: l) (Dir es))
      with (match fs.get_entry x es with
            | Some ch => match fs.unlink_at (y :: l) ch with
                         | Some ch' => Some (Dir (fs.set_entry x ch' es))
                         | None => None
                         end
            | None => None
            end).
    rewrite Hch, Hun. eauto.
Qed.

(** ** C7: ownership gating *)

Lemma safe_vault_path_shape p fpath :
  _safe_vault_path p = Some fpath →
  pathlib.root fpath = "/" ∧ clean (pathlib.parts fpath) ∧
  ∃ rel, pathlib.parts fpath = pathlib.parts VAULT ++ rel ∧
         pathlib.relative_to fpath VAULT = Some (mkPath "" rel).
Proof.
  intros H. apply (safe_vault_path_iff p) in H
    as (_ & -> & Hroot & rel & Hrel & _).
  split; [done|]. split; [apply resolve_clean|].
  exists rel. split; [done|].
  unfold pathlib.relative_to. rewrite Hroot, VAULT_root, String.eqb_refl.
  by rewrite (proj2 (strip_prefix_app _ _ rel) Hrel).
Qed.

Lemma is_file_walk root fpath :
  pathlib.root fpath = "/" →
  fs.is_file cwd root fpath = true →
  ∃ c m, fs.walk [] root (pathlib.parts fpath) = Some (File c m).
Proof.
  unfold fs.is_file, fs.stat, fs.abs_parts. intros ->. simpl.
  destruct (fs.walk [] root (pathlib.parts fpath)) as [[c m|]|]; [eauto|done..].
Qed.

Lemma sid_owns_false st req rel_str :
  ALLOW_EDIT_ALL = false → rel_str ∉ owned_by st req →
  _sid_owns st req rel_str = false.
Proof.
  unfold _sid_owns, owned_by. intros -> Hno.
  destruct (_session_files st !! default "" (cookie req)) as [owned|]; [|done].
  by apply bool_decide_eq_false.
Qed.

Lemma sid_owns_edit_all st req rel_str :
  ALLOW_EDIT_ALL = true → _sid_owns st req rel_str = true.
Proof. unfold _sid_owns. by intros ->. Qed.

(** C7.  For a file of the vault (the sandbox accepts its path and it is
    a regular file): with edit-all off and the relative path outside the
    caller's ownership set, PUT and DELETE answer 403, which is not the
    404 of a missing file, and leave the whole state as it was; with
    edit-all on, whatever the session, PUT with a string writes it and
    DELETE unlinks the file. *)
Theorem ownership_gating (st : State) (req : Request) (note_path : string)
    (fpath : Path) :
  fs.is_dir_node (st_fs st) = true →
  _safe_vault_path note_path = Some fpath →
  fs.is_file cwd (st_fs st) fpath = true →
  ∃ rel, pathlib.relative_to fpath VAULT = Some rel ∧
    (ALLOW_EDIT_ALL = false → pathlib.str rel ∉ owned_by st req →
       (∀ body, ∃ msg,
          _api_note_put st req note_path body = (JsonError 403 msg, st)
          ∧ JsonError 403 msg ≠ Abort 404) ∧
       (∃ msg, _api_note_delete st req note_path = (JsonError 403 msg, st)
          ∧ JsonError 403 msg ≠ Abort 404)) ∧
    (ALLOW_EDIT_ALL = true →
       (∀ s, ∃ root',
          fs.write_at (pathlib.parts fpath) s (wall_clock req) (st_fs st)
            = Some root' ∧
          _api_note_put st req note_path (BodyDict (Some (Some s)))
            = (Ok200 (PutOk (pathlib.str rel) (wall_clock req)),
               _invalidate_tree_cache
                 (mkState root' (_session_files st) (_tree_cache st))) ∧
          fs.read_text cwd root' fpath = Some s) ∧
       (∃ root',
          fs.unlink_at (pathlib.parts fpath) (st_fs st) = Some root' ∧
          (_api_note_delete st req note_path).1 = Ok200 DeleteOk ∧
          st_fs (_api_note_delete st req note_path).2 = root')).
Proof.
  intros Hroot Hsafe Hfile.
  destruct (safe_vault_path_shape _ _ Hsafe) as (Hr & Hclean & rel & Hparts & Hrel).
  exists (mkPath "" rel). split; [done|].
  destruct (is_file_walk _ _ Hr Hfile) as (c0 & m0 & Hwalk).
  split.
  - intros Hoff Hnot.
    pose proof (sid_owns_false st req _ Hoff Hnot) as Hown.
    split.
    + intros body. eexists. split; [|done].
      unfold _api_note_put. by rewrite Hsafe, Hfile, Hrel, Hown.
    + eexists. split; [|done].
      unfold _api_note_delete. by rewrite Hsafe, Hfile, Hrel, Hown.
  - intros Hon. split.
    + intros s.
      destruct (write_at_existing _ s (wall_clock req) Hclean _ _ _ _ Hwalk)
        as (root' & Hwr & Hrd).
      exists root'. split; [done|].
      assert (Hst : fs.stat cwd root' fpath = Some (File s (wall_clock req))).
      { unfold fs.stat, fs.abs_parts. rewrite Hr. apply Hrd. }
      split.
      * unfold _api_note_put.
        rewrite Hsafe, Hfile, Hrel, (sid_owns_edit_all st req _ Hon).
        cbn [negb body_content]. rewrite Hwr.
        unfold fs.st_mtime. by rewrite Hst.
      * unfold fs.read_text. by rewrite Hst.
    + assert (Hne : pathlib.parts fpath ≠ []).
      { intros Hnil. rewrite Hnil in Hwalk. simpl in Hwalk.
        injection Hwalk as Hw. rewrite Hw in Hroot. done. }
      destruct (unlink_at_existing _ Hclean _ _ _ _ Hwalk Hne) as (root' & Hun).
      exists root'. split; [done|].
      unfold _api_note_delete.
      rewrite Hsafe, Hfile, Hrel, (sid_owns_edit_all st req _ Hon).
      cbn [negb]. rewrite Hun. done.
Qed.

(** ** Orders and sorting *)


Lemma str_ltb_irrefl a : Str.ltb a a = false.
Proof.
  induction a as [|x a IH]; simpl; [done|].
  rewrite Nat.ltb_irrefl, Ascii.eqb_refl. exact IH.
Qed.





Section SortedFacts.
Context {A : Type} (lt : A → A → bool).
Hypothesis lt_asym : ∀ a b, lt a b = true → lt b a = false.
Hypothesis le_trans : ∀ a b c, lt b a = false → lt c b = false → lt c a = false.





End SortedFacts.

(** ** C8: order of the tree *)




(** *** The recursion of [build_tree] ends *)

Lemma contains_slash_cons c s :
  Str.contains "/" (String c s) = false → c ≠ "/"%char ∧ Str.contains "/" s = false.
Proof.
  simpl. intros H. apply orb_false_iff in H as [H1 H2]. split; [|done].
  intros ->. simpl in H1. by destruct s.
Qed.

Lemma split_no_slash s : Str.contains "/" s = false → Str.split "/" s = [s].
Proof.
  induction s as [|c s IH]; [done|].
  intros H. apply contains_slash_cons in H as [Hc Hs]. simpl.
  destruct (Ascii.eqb_spec c "/"); [done|]. by rewrite IH.
Qed.

Lemma valid_name_inv x :
  valid_name x = true →
  x ≠ "" ∧ x ≠ "." ∧ x ≠ ".." ∧ Str.contains "/" x = false.
Proof.
  unfold valid_name. rewrite !andb_true_iff, !negb_true_iff.
  intros [[[H1 H2] H3] H4].
  apply nonempty_true in H1. apply String.eqb_neq in H2, H3. done.
Qed.


Lemma walk_snoc x l :
  x ≠ ".." → ∀ anc n,
  fs.walk anc n (l ++ [x])
  = match fs.walk anc n l with
    | Some (Dir es) => fs.get_entry x es
    | _ => None
    end.
Proof.
  intros Hx. induction l as [|y l IH]; intros anc n; simpl.
  - destruct n as [|es]; [done|].
    apply String.eqb_neq in Hx. rewrite Hx.
    by destruct (fs.get_entry x es).
  - destruct n as [|es]; [done|].
    destruct (y =? "..")%string.
    + destruct anc; apply IH.
    + destruct (fs.get_entry y es); [apply IH|done].
Qed.

Lemma get_entry_elem x es c : fs.get_entry x es = Some c → (x, c) ∈ es.
Proof.
  induction es as [|[y n] es IH]; simpl; [done|].
  destruct (String.eqb_spec y x) as [->|].
  - intros [= ->]. apply elem_of_cons. by left.
  - intros H. apply elem_of_cons. right. by apply IH.
Qed.









(** ** C4: edges of the graph *)

Lemma unique_loop_acc (edges : list Edge) edge_set acc :
  unique_loop edges edge_set acc = acc ++ unique_loop edges edge_set [].
Proof.
  revert edge_set acc. induction edges as [|e rest IH]; intros S acc; simpl.
  - by rewrite app_nil_r.
  - destruct (bool_decide (_ ∈ S)); [apply IH|].
    rewrite (IH _ (acc ++ [e])), (IH _ [e]). by rewrite <- app_assoc.
Qed.

Lemma unique_loop_cons e rest edge_set :
  unique_loop (e :: rest) edge_set []
  = if bool_decide (edge_key e ∈ edge_set) then unique_loop rest edge_set []
    else e :: unique_loop rest ({[edge_key e]} ∪ edge_set) [].
Proof.
  simpl. unfold edge_key. destruct (bool_decide _); [done|].
  by rewrite (unique_loop_acc rest _ [e]).
Qed.

(** The third loop, started with the keys [seen] taken: what it keeps. *)
Lemma unique_loop_spec (edges : list Edge) (seen : gset (string * string)) :
  let out := unique_loop edges seen [] in
  sublist out edges ∧
  NoDup (edge_key <$> out) ∧
  (∀ e, e ∈ out → edge_key e ∉ seen) ∧
  (∀ e, e ∈ edges → edge_key e ∈ seen ∨ edge_key e ∈ edge_key <$> out) ∧
  (∀ e, e ∈ out → ∃ before after,
        edges = before ++ e :: after ∧ edge_key e ∉ edge_key <$> before).
Proof.
  revert seen. induction edges as [|e rest IH]; intros seen.
  { simpl. split; [apply sublist_nil|]. split; [apply NoDup_nil_2|].
    repeat split; intros e H; by apply elem_of_nil in H. }
  cbv zeta. rewrite unique_loop_cons. case_bool_decide as Hin.
  - destruct (IH seen) as (Hsub & Hnd & Hfresh & Hcov & Hfirst).
    repeat split; [by constructor|done|done| |].
    + intros e' He'. apply elem_of_cons in He' as [->|He']; [by left|by apply Hcov].
    + intros e' He'. destruct (Hfirst e' He') as (before & after & -> & Hb).
      exists (e :: before), after. split; [done|].
      rewrite fmap_cons, not_elem_of_cons. split; [|done].
      intros Heq. apply (Hfresh e' He'). by rewrite Heq.
  - destruct (IH ({[edge_key e]} ∪ seen)) as (Hsub & Hnd & Hfresh & Hcov & Hfirst).
    repeat split.
    + by constructor.
    + rewrite fmap_cons. constructor; [|done].
      intros Hk. apply list_elem_of_fmap in Hk as (e' & Heq & He').
      apply (Hfresh e' He'). rewrite <- Heq.
      apply elem_of_union. left. by apply elem_of_singleton.
    + intros e' He'. apply elem_of_cons in He' as [->|He']; [done|].
      intros Hs. apply (Hfresh e' He'). apply elem_of_union. by right.
    + intros e' He'. rewrite fmap_cons.
      apply elem_of_cons in He' as [->|He']; [right; apply elem_of_cons; by left|].
      destruct (Hcov e' He') as [Hs|Hs]; [|right; apply elem_of_cons; by right].
      apply elem_of_union in Hs as [Hs|Hs]; [|by left].
      apply elem_of_singleton in Hs. rewrite Hs. right. apply elem_of_cons. by left.
    + intros e' He'. apply elem_of_cons in He' as [->|He'].
      * exists [], rest. split; [done|]. apply not_elem_of_nil.
      * destruct (Hfirst e' He') as (before & after & -> & Hb).
        exists (e :: before), after. split; [done|].
        rewrite fmap_cons, not_elem_of_cons. split; [|done].
        intros Heq. apply (Hfresh e' He'). rewrite Heq.
        apply elem_of_union. left. by apply elem_of_singleton.
Qed.

Lemma str_app_cons c (a b : string) : String c a +:+ b = String c (a +:+ b).
Proof. reflexivity. Qed.

Lemma str_app_assoc (a b c : string) : (a +:+ b) +:+ c = a +:+ (b +:+ c).
Proof. induction a as [|x a IH]; [done|]. by rewrite !str_app_cons, IH. Qed.

Lemma length_app_str (a b : string) :
  String.length (a +:+ b) = (String.length a + String.length b)%nat.
Proof.
  induction a as [|c a IH]; [done|]. rewrite str_app_cons. simpl. by rewrite IH.
Qed.


Lemma str_relative (l : list string) :
  l ≠ [] → pathlib.str (mkPath "" l) = Str.join "/" l.
Proof. by destruct l. Qed.




Lemma fold_left_invariant {A B : Type} (P : A → Prop) (f : A → B → A)
    (l : list B) (a : A) :
  P a → (∀ a b, b ∈ l → P a → P (f a b)) → P (fold_left f l a).
Proof.
  revert a. induction l as [|b l IH]; intros a Ha Hstep; simpl; [done|].
  apply IH.
  - apply Hstep; [apply elem_of_cons; by left|done].
  - intros a' b' Hb'. apply Hstep. apply elem_of_cons. by right.
Qed.

Lemma relative_to_root p other rel :
  pathlib.relative_to p other = Some rel → pathlib.root rel = "".
Proof.
  unfold pathlib.relative_to. destruct (String.eqb _ _); [|done].
  destruct (pathlib.strip_prefix _ _); [|done]. by intros [= <-].
Qed.






(** ** C5: wikilink expansion *)

Lemma str_app_nil_r (s : string) : s +:+ "" = s.
Proof. induction s as [|c s IH]; [done|]. by rewrite str_app_cons, IH. Qed.

Lemma lower_empty s : Str.lower s = "" ↔ s = "".
Proof. by destruct s. Qed.

Lemma span_until_app stop t r :
  str_forall (λ c, negb (stop c)) t = true →
  (match r with EmptyString => true | String c _ => stop c end) = true →
  span_until stop (t +:+ r) = (t, r).
Proof.
  intros Ht Hr. induction t as [|c t IH].
  - destruct r as [|c r]; [done|]. simpl in *. change ("" +:+ String c r) with (String c r).
    simpl. by rewrite Hr.
  - simpl in Ht. apply andb_true_iff in Ht as [Hc Ht].
    rewrite str_app_cons. simpl. apply negb_true_iff in Hc. rewrite Hc.
    by rewrite (IH Ht).
Qed.

Lemma sub_from_skip matcher repl s k :
  (String.length s ≤ k)%nat → sub_from matcher repl k s = "".
Proof.
  revert k. induction s as [|c s IH]; intros k Hk; [done|].
  simpl in *. destruct k as [|k]; [lia|]. apply IH. lia.
Qed.

Lemma match_wikilink_plain t :
  target_ok t = true →
  match_wikilink ("[[" +:+ t +:+ "]]") = Some (t, None, "").
Proof.
  unfold target_ok. intros [Hne Hok]%andb_true_iff.
  change ("[[" +:+ t +:+ "]]") with (String "[" (String "[" (t +:+ "]]"))).
  cbn [match_wikilink]. rewrite (span_until_app _ t "]]" Hok eq_refl).
  by rewrite Hne.
Qed.

Lemma match_wikilink_alias t a :
  target_ok t = true → alias_ok a = true →
  match_wikilink ("[[" +:+ t +:+ "|" +:+ a +:+ "]]") = Some (t, Some a, "").
Proof.
  unfold target_ok, alias_ok. intros [Hne Hok]%andb_true_iff Ha.
  change ("[[" +:+ t +:+ "|" +:+ a +:+ "]]")
    with (String "[" (String "[" (t +:+ String "|" (a +:+ "]]")))).
  cbn [match_wikilink].
  rewrite (span_until_app _ t (String "|" (a +:+ "]]")) Hok eq_refl).
  rewrite Hne. cbn [negb]. by rewrite (span_until_app _ a "]]" Ha eq_refl).
Qed.

Lemma sub_whole_match matcher repl s g1 g2 :
  s ≠ "" → matcher s = Some (g1, g2, "") →
  sub_from matcher repl 0 s = repl g1 g2.
Proof.
  intros Hs Hm. destruct s as [|c s]; [done|]. cbn [sub_from]. rewrite Hm.
  rewrite sub_from_skip; [apply str_app_nil_r|]. simpl. lia.
Qed.

Lemma replace_link_spec target alias :
  replace_link target alias
  = "[" +:+ wikilink_display target alias +:+ "](" +:+ wikilink_href target +:+ ")".
Proof.
  unfold replace_link, wikilink_href, wikilink_display, extension.
  assert (Hd : match alias with
               | Some a => if Str.nonempty a then a else target
               | None => target
               end
             = match alias with
               | Some a => if String.eqb a "" then target else a
               | None => target
               end).
  { destruct alias as [[|c a]|]; done. }
  rewrite Hd. clear Hd.
  set (d := match alias with Some a => _ | None => _ end).
  set (sfx := pathlib.suffix (pathlib.parse target)).
  destruct (String.eqb (Str.lower sfx) ".pdf").
  { by rewrite !str_app_assoc. }
  destruct (is_image_ext (Str.lower sfx)).
  { by rewrite !str_app_assoc. }
  destruct sfx as [|c sfx]; simpl; by rewrite !str_app_assoc.
Qed.

(** C5.  A match with groups [target] and [alias] is replaced by the
    markdown link with the display text and href of the wording (an alias
    counts as given when it is not empty; the extension is compared in
    lower case); and the pass turns the text [[[target]]] or
    [[[target|alias]]] into exactly that link. *)
Theorem wikilink_expansion (target : string) :
  (∀ alias,
     replace_link target alias
     = "[" +:+ wikilink_display target alias +:+ "]("
           +:+ wikilink_href target +:+ ")") ∧
  (target_ok target = true →
   expand_wikilinks ("[[" +:+ target +:+ "]]")
   = "[" +:+ target +:+ "](" +:+ wikilink_href target +:+ ")" ∧
   ∀ alias, alias_ok alias = true →
     expand_wikilinks ("[[" +:+ target +:+ "|" +:+ alias +:+ "]]")
     = "[" +:+ wikilink_display target (Some alias) +:+ "]("
           +:+ wikilink_href target +:+ ")").
Proof.
  split; [apply replace_link_spec|].
  intros Hok. split.
  - unfold expand_wikilinks.
    rewrite (sub_whole_match _ _ _ target None); [apply replace_link_spec|done|].
    by apply match_wikilink_plain.
  - intros alias Ha. unfold expand_wikilinks.
    rewrite (sub_whole_match _ _ _ target (Some alias));
      [apply replace_link_spec|done|].
    by apply match_wikilink_alias.
Qed.

(** ** C6: the fingerprint *)







Lemma get_tree_hash_recomputed fuel st req :
  cache_fresh st req = false →
  _get_tree_hash fuel st req
  = match fingerprint fuel (st_fs st) with
    | Done digest =>
        Done (digest, mkState (st_fs st) (_session_files st)
                              (mkTreeCache (Some digest) (monotonic req)))
    | Raised => Raised
    | OutOfFuel => OutOfFuel
    end.
Proof.
  unfold _get_tree_hash, cache_fresh, fingerprint.
  destruct (cache_hash (_tree_cache st)); [intros ->|intros _];
    by destruct (_walk_vault fuel (st_fs st) VAULT).
Qed.

Section SortedRelated.
Context {A : Type} (lt : A → A → bool) (R : A → A → Prop).
Hypothesis lt_related : ∀ a a' b b', R a a' → R b b' → lt a b = lt a' b'.


End SortedRelated.










Lemma walk_clean_anc d :
  clean d → ∀ anc anc' n, fs.walk anc n d = fs.walk anc' n d.
Proof.
  induction 1 as [|x d Hx Hd IH]; intros anc anc' n; simpl; [done|].
  destruct n as [|es]; [done|].
  apply String.eqb_neq in Hx. rewrite Hx.
  destruct (fs.get_entry x es); [apply IH|done].
Qed.







(** *** The walker ends *)



Lemma unique_names_entry x c es :
  unique_names (Dir es) = true → (x, c) ∈ es →
  unique_names c = true ∧ fs.get_entry x es = Some c.
Proof.
  simpl. intros [Hnd Hch]%andb_true_iff Hin. apply bool_decide_eq_true in Hnd.
  split.
  - clear Hnd. induction es as [|[y n] es IH]; [by apply elem_of_nil in Hin|].
    apply andb_true_iff in Hch as [Hn Hes].
    apply elem_of_cons in Hin as [[= <- <-]|Hin]; [done|]. by apply IH.
  - clear Hch. induction es as [|[y n] es IH]; [by apply elem_of_nil in Hin|].
    simpl in *. apply NoDup_cons in Hnd as [Hy Hnd].
    apply elem_of_cons in Hin as [[= <- <-]|Hin].
    + by rewrite String.eqb_refl.
    + destruct (String.eqb_spec y x) as [->|Hne]; [|by apply IH].
      exfalso. apply Hy. apply list_elem_of_fmap. by exists (x, c).
Qed.


Lemma insert_sorted_perm {A : Type} (lt : A → A → bool) x l :
  insert_sorted lt x l ≡ₚ x :: l.
Proof.
  induction l as [|y l IH]; simpl; [done|].
  destruct (lt y x); [|done]. rewrite IH. apply Permutation_swap.
Qed.

(** [sorted] rearranges its argument. *)
Lemma sorted_perm {A : Type} (lt : A → A → bool) l : sorted lt l ≡ₚ l.
Proof.
  induction l as [|x l IH]; simpl; [done|].
  by rewrite insert_sorted_perm, IH.
Qed.



Lemma relative_to_walkable d :
  walkable d → ∃ rel, pathlib.relative_to d VAULT = Some rel.
Proof.
  intros (Hr & l & Hl & _). unfold pathlib.relative_to.
  rewrite Hr, VAULT_root, String.eqb_refl, Hl.
  rewrite (proj2 (strip_prefix_app _ _ l) eq_refl). eauto.
Qed.










(** ** The static graph against the live one *)

Lemma joinpath_relative p rel :
  pathlib.relative_to p VAULT = Some rel → pathlib.joinpath VAULT rel = p.
Proof.
  unfold pathlib.relative_to, pathlib.joinpath.
  destruct (String.eqb_spec (pathlib.root p) (pathlib.root VAULT)) as [Hr|]; [|done].
  destruct (pathlib.strip_prefix _ _) as [r|] eqn:Hs; [|done].
  intros [= <-]. apply strip_prefix_app in Hs. simpl.
  destruct p as [rt ps]. simpl in *. by rewrite Hr, Hs.
Qed.

(** The two first loops agree on a listing from which the two filters of
    [collect_files] alone remove nothing. *)
Lemma graph_of_collected root (l : list Path) :
  Forall (λ p, idle_at root p = true) l →
  ∀ acc,
  fold_left (λ acc rel, add_file (pathlib.joinpath VAULT rel) rel acc)
    (omap (λ p,
       if negb (fs.is_file cwd root p) then None
       else
         match pathlib.relative_to p VAULT with
         | None => None
         | Some rel =>
             if any_excluded_dir (pathlib.parts rel) then None
             else if bool_decide (pathlib.name p ∈ EXCLUDED_FILES) then None
             else if Str.startswith "_site" (pathlib.str rel) then None
             else if String.eqb (pathlib.name p) "build_static.py" then None
             else Some rel
         end) l) acc
  = fold_left (λ acc p,
      if negb (fs.is_file cwd root p) then acc
      else
        match pathlib.relative_to p VAULT with
        | None => acc
        | Some rel =>
            if any_excluded_dir (pathlib.parts rel) then acc
            else if bool_decide (pathlib.name p ∈ EXCLUDED_FILES) then acc
            else add_file p rel acc
        end) l acc.
Proof.
  induction 1 as [|p l Hp Hl IH]; intros acc; [done|]. cbn [omap list_omap fold_left].
  unfold idle_at in Hp.
  destruct (negb (fs.is_file cwd root p)); [apply IH|].
  destruct (pathlib.relative_to p VAULT) as [rel|] eqn:Hrel; [|apply IH].
  destruct (any_excluded_dir (pathlib.parts rel)); [apply IH|].
  destruct (bool_decide (pathlib.name p ∈ EXCLUDED_FILES)); [apply IH|].
  cbn [orb] in Hp. apply andb_prop in Hp as [Hsite Hname].
  apply negb_true_iff in Hsite, Hname. rewrite Hsite, Hname. cbn [fold_left].
  rewrite (joinpath_relative _ _ Hrel). apply IH.
Qed.

Lemma collect_files_relative root :
  forallb (λ rel, negb (Str.nonempty (pathlib.root rel))) (collect_files root) = true.
Proof.
  apply forallb_forall. intros rel Hin. apply list_elem_of_In in Hin.
  unfold collect_files in Hin. apply list_elem_of_omap in Hin as (p & _ & Hp).
  destruct (negb (fs.is_file cwd root p)); [done|].
  destruct (pathlib.relative_to p VAULT) as [rel'|] eqn:Hrel; [|done].
  repeat (match type of Hp with (if ?b then _ else _) = _ => destruct b end; [done|]).
  injection Hp as <-. by rewrite (relative_to_root _ _ _ Hrel).
Qed.

(** X1.  On a vault where the two filters that only [collect_files] has
    remove nothing (no file the server lists has a path below the vault that
    begins with the characters [_site], and none is named
    [build_static.py]), the static graph is the live one: same nodes, same
    edges, in the same order. *)
Theorem static_graph_is_live_graph st :
  static_filters_idle (st_fs st) = true →
  generate_graph (st_fs st) (collect_files (st_fs st)) = Some (api_graph st).
Proof.
  intros Hidle. unfold generate_graph. rewrite collect_files_relative.
  f_equal. unfold api_graph. f_equal.
  unfold graph_of_files, graph_files, collect_files.
  apply graph_of_collected. apply Forall_forall. intros p Hp.
  rewrite (sorted_perm path_ltb (rglob_all (st_fs st))) in Hp.
  unfold static_filters_idle in Hidle.
  apply (proj1 (forallb_forall _ _) Hidle). by apply list_elem_of_In.
Qed.

(** ** C10: uploads *)

(** Creating directories leaves every regular file as it was. *)
Lemma mkdir_p_frame l :
  ∀ n n', fs.mkdir_p l n = Some n' →
  ∀ q, clean q → ∀ anc anc' c m,
  fs.walk anc n q = Some (File c m) → fs.walk anc' n' q = Some (File c m).
Proof.
  induction l as [|z l IH]; intros n n' Hmk q Hq anc anc' c m Hw.
  { destruct n; [done|]. injection Hmk as <-.
    by rewrite (walk_clean_anc q Hq anc' anc). }
  destruct n as [|es]; [done|]. cbn [fs.mkdir_p] in Hmk.
  destruct Hq as [|y q Hy Hq]; [done|].
  apply String.eqb_neq in Hy. cbn [fs.walk] in Hw. rewrite Hy in Hw.
  destruct (fs.get_entry y es) as [ch|] eqn:Hch; [|done].
  destruct (fs.get_entry z es) as [chz|] eqn:Hz.
  - destruct (fs.mkdir_p l chz) as [chz'|] eqn:Hmk'; [|done]. injection Hmk as <-.
    cbn [fs.walk]. rewrite Hy.
    destruct (String.eqb_spec z y) as [->|Hne].
    + rewrite get_set_entry_eq. rewrite Hz in Hch. injection Hch as ->.
      by eapply IH.
    + rewrite get_set_entry_ne, Hch by done.
      by rewrite (walk_clean_anc q Hq _ (Dir es :: anc)).
  - injection Hmk as <-. cbn [fs.walk]. rewrite Hy.
    rewrite (get_entry_app_Some _ _ _ _ Hch).
    by rewrite (walk_clean_anc q Hq _ (Dir es :: anc)).
Qed.

(** Writing to a path that names nothing leaves every regular file as it
    was. *)
Lemma write_at_frame l :
  clean l → ∀ n n' c m, fs.write_at l c m n = Some n' →
  (∀ anc, fs.walk anc n l = None) →
  ∀ q, clean q → ∀ anc anc' c0 m0,
  fs.walk anc n q = Some (File c0 m0) → fs.walk anc' n' q = Some (File c0 m0).
Proof.
  induction 1 as [|x l Hx Hl IH]; intros n n' c m Hwr Hfresh q Hq anc anc' c0 m0 Hw.
  { by specialize (Hfresh []). }
  apply String.eqb_neq in Hx.
  destruct n as [|es]; [done|]. cbn [fs.write_at] in Hwr.
  destruct Hq as [|y q Hy Hq]; [done|].
  apply String.eqb_neq in Hy. cbn [fs.walk] in Hw. rewrite Hy in Hw.
  destruct (fs.get_entry y es) as [ch|] eqn:Hch; [|done].
  destruct (fs.get_entry x es) as [chx|] eqn:Hcx.
  - destruct (fs.write_at l c m chx) as [chx'|] eqn:Hwr'; [|done].
    injection Hwr as <-. cbn [fs.walk]. rewrite Hy.
    destruct (String.eqb_spec x y) as [->|Hne].
    + rewrite get_set_entry_eq. rewrite Hcx in Hch. injection Hch as ->.
      eapply IH; [exact Hwr'| |done|exact Hw].
      intros anc0. specialize (Hfresh []). cbn [fs.walk] in Hfresh.
      rewrite Hx, Hcx in Hfresh.
      by rewrite (walk_clean_anc l Hl anc0 [Dir es]).
    + rewrite get_set_entry_ne, Hch by done.
      by rewrite (walk_clean_anc q Hq _ (Dir es :: anc)).
  - destruct l; [|done]. injection Hwr as <-. cbn [fs.walk]. rewrite Hy.
    rewrite (get_entry_app_Some _ _ _ _ Hch).
    by rewrite (walk_clean_anc q Hq _ (Dir es :: anc)).
Qed.

Lemma fresh_dirs_walk l x :
  clean (l ++ [x]) → ∀ anc, fs.walk anc (fs.fresh_dirs l) (l ++ [x]) = None.
Proof.
  induction l as [|a l IH]; intros Hcl anc; simpl;
    inversion Hcl as [|? ? Ha Hcl']; subst; apply String.eqb_neq in Ha; rewrite Ha.
  - done.
  - rewrite String.eqb_refl. by apply IH.
Qed.

(** Creating the parent directories does not create the file itself. *)
Lemma mkdir_p_fresh l x :
  clean (l ++ [x]) → ∀ n n', fs.mkdir_p l n = Some n' →
  (∀ anc, fs.walk anc n (l ++ [x]) = None) →
  ∀ anc, fs.walk anc n' (l ++ [x]) = None.
Proof.
  induction l as [|z l IH]; intros Hcl n n' Hmk Hfresh anc.
  { destruct n; [done|]. injection Hmk as <-. apply Hfresh. }
  destruct n as [|es]; [done|]. cbn [fs.mkdir_p] in Hmk.
  inversion Hcl as [|? ? Hz Hcl']; subst. apply String.eqb_neq in Hz.
  destruct (fs.get_entry z es) as [chz|] eqn:Hgz.
  - destruct (fs.mkdir_p l chz) as [chz'|] eqn:Hmk'; [|done]. injection Hmk as <-.
    simpl. rewrite Hz, get_set_entry_eq.
    eapply IH; [done|exact Hmk'|].
    intros anc0. specialize (Hfresh []). simpl in Hfresh. rewrite Hz, Hgz in Hfresh.
    by rewrite (walk_clean_anc _ Hcl' anc0 [Dir es]).
  - injection Hmk as <-. simpl. rewrite Hz.
    rewrite (get_entry_app_None _ _ _ Hgz). simpl. rewrite String.eqb_refl.
    by apply fresh_dirs_walk.
Qed.

Lemma exists_walk root p :
  pathlib.root p = "/" →
  fs.exists_ cwd root p = false → fs.walk [] root (pathlib.parts p) = None.
Proof.
  unfold fs.exists_, fs.stat, fs.abs_parts. intros -> H. simpl in H.
  apply bool_decide_eq_false in H.
  destruct (fs.walk [] root (pathlib.parts p)); [|done]. by destruct H.
Qed.


Lemma write_at_read l c m :
  clean l → ∀ n n', fs.write_at l c m n = Some n' →
  ∀ anc, fs.walk anc n' l = Some (File c m).
Proof.
  induction 1 as [|x l Hx Hl IH]; intros n n' Hwr anc.
  { destruct n; [|done]. by injection Hwr as <-. }
  apply String.eqb_neq in Hx.
  destruct n as [|es]; [done|]. cbn [fs.write_at] in Hwr.
  destruct (fs.get_entry x es) as [ch|] eqn:Hch.
  - destruct (fs.write_at l c m ch) as [ch'|] eqn:Hwr'; [|done].
    injection Hwr as <-. simpl. rewrite Hx, get_set_entry_eq. by eapply IH.
  - destruct l; [|done]. injection Hwr as <-. simpl. rewrite Hx.
    rewrite (get_entry_app_None _ _ _ Hch). simpl. by rewrite String.eqb_refl.
Qed.

Lemma get_or_create_sid_fs st req :
  st_fs (_get_or_create_sid st req).2 = st_fs st.
Proof.
  unfold _get_or_create_sid. destruct (cookie req) as [sid|]; [|done].
  by destruct (_ && _).
Qed.



(** *** Names the upload loop builds *)

Lemma contains_char_cons c x s :
  Str.contains (String c "") (String x s)
  = Ascii.eqb c x || Str.contains (String c "") s.
Proof.
  simpl. destruct (Ascii.eqb_spec c x) as [->|Hne].
  - destruct (ascii_dec x x); [|done]. by destruct s.
  - destruct (ascii_dec c x); [done|]. done.
Qed.







Lemma split_pieces_no_slash s :
  Forall (λ x, Str.contains "/" x = false) (Str.split "/" s).
Proof.
  induction s as [|c s IH]; [by repeat constructor|]. simpl.
  destruct (Ascii.eqb_spec c "/") as [->|Hne]; [by constructor|].
  assert (Hc : Ascii.eqb "/" c = false).
  { destruct (Ascii.eqb_spec "/" c); [congruence|done]. }
  destruct (Str.split "/" s) as [|w ws].
  - repeat constructor. by rewrite contains_char_cons, Hc.
  - inversion IH as [|? ? Hw Hws]; subst. constructor; [|done].
    by rewrite contains_char_cons, Hw, Hc.
Qed.

Lemma split_app_sep x s :
  Str.contains "/" x = false →
  Str.split "/" (x +:+ String "/" s) = x :: Str.split "/" s.
Proof.
  induction x as [|c x IH]; intros Hx; [done|].
  rewrite contains_char_cons in Hx. apply orb_false_iff in Hx as [Hc Hx].
  rewrite str_app_cons. simpl.
  destruct (Ascii.eqb_spec c "/") as [->|_]; [done|]. by rewrite IH.
Qed.

Lemma split_join (l : list string) :
  l ≠ [] → Forall (λ x, Str.contains "/" x = false) l →
  Str.split "/" (Str.join "/" l) = l.
Proof.
  induction l as [|x l IH]; [done|]. intros _ Hl.
  inversion Hl as [|? ? Hx Hl']; subst.
  destruct l as [|y l]; [by apply split_no_slash|].
  change (Str.join "/" (x :: y :: l)) with (x +:+ String "/" (Str.join "/" (y :: l))).
  rewrite split_app_sep by done. f_equal. by apply IH.
Qed.

(** The components pathlib keeps when it reads a string. *)
Lemma parse_parts_valid s :
  Forall (λ x, x = ".." ∨ valid_name x = true) (pathlib.parts (pathlib.parse s)).
Proof.
  unfold pathlib.parse. simpl. apply Forall_forall. intros x Hx.
  apply list_elem_of_In, filter_In in Hx as [Hin Hkeep].
  pose proof (split_pieces_no_slash s) as Hsl.
  rewrite Forall_forall in Hsl. specialize (Hsl x (proj2 (list_elem_of_In _ _) Hin)).
  unfold pathlib.keep_part in Hkeep. apply andb_true_iff in Hkeep as [Hne Hdot].
  destruct (String.eqb_spec x "..") as [->|Hdd]; [by left|]. right.
  unfold valid_name. rewrite Hne, Hdot, Hsl. simpl.
  by apply String.eqb_neq in Hdd as ->.
Qed.

Lemma splitroot_relative c s : c ≠ "/"%char → pathlib.splitroot (String c s) = "".
Proof.
  intros Hc. simpl.
  destruct c as [[] [] [] [] [] [] [] []]; try done.
Qed.

(** Printing a relative path with valid components and reading it back
    gives the same path. *)
Lemma parse_str_relative (l : list string) :
  l ≠ [] → Forall (λ x, valid_name x = true) l →
  pathlib.parse (pathlib.str (mkPath "" l)) = mkPath "" l.
Proof.
  intros Hne Hl. rewrite str_relative by done. unfold pathlib.parse.
  assert (Hsl : Forall (λ x, Str.contains "/" x = false) l).
  { eapply Forall_impl; [exact Hl|]. intros x Hx.
    by destruct (valid_name_inv x Hx) as (_ & _ & _ & ?). }
  rewrite split_join by done. f_equal.
  - destruct l as [|x l]; [done|]. inversion Hl as [|? ? Hx _]; subst.
    destruct (valid_name_inv x Hx) as (Hx0 & _ & _ & Hxs).
    destruct x as [|c x]; [done|].
    apply contains_slash_cons in Hxs as [Hc _].
    destruct l as [|y l]; [by apply splitroot_relative|].
    change (Str.join "/" (String c x :: y :: l))
      with (String c (x +:+ "/" +:+ Str.join "/" (y :: l))).
    by apply splitroot_relative.
  - clear Hne Hsl. induction Hl as [|x l Hx Hl IH]; [done|].
    assert (Hk : pathlib.keep_part x = true).
    { destruct (valid_name_inv x Hx) as (Hx0 & Hx1 & _ & _).
      unfold pathlib.keep_part.
      apply nonempty_true in Hx0. apply String.eqb_neq in Hx1.
      by rewrite Hx0, Hx1. }
    cbn [List.filter]. by rewrite Hk, IH.
Qed.

Lemma normalize_from (P : string → Prop) l :
  Forall P l → ∀ acc, ∃ k pushed,
  pathlib.normalize acc l = List.rev (drop k acc) ++ pushed ∧ Forall P pushed.
Proof.
  induction 1 as [|x l Hx Hl IH]; intros acc; simpl.
  - exists 0%nat, []. by rewrite app_nil_r.
  - destruct (x =? "..")%string.
    + destruct (IH (List.tl acc)) as (k & pushed & -> & Hp).
      exists (S k), pushed. split; [|done].
      destruct acc; simpl; [by rewrite !drop_nil|done].
    + destruct (IH (x :: acc)) as ([|k] & pushed & -> & Hp).
      * exists 0%nat, (x :: pushed). simpl. rewrite <- app_assoc. by split; [|constructor].
      * exists k, pushed. by split.
Qed.

Lemma app_suffix_inv {A : Type} (a r b p : list A) :
  a ++ r = b ++ p → (length b ≤ length a)%nat → ∃ s, p = s ++ r.
Proof.
  revert a. induction b as [|y b IH]; intros a H Hlen.
  - exists a. by rewrite H.
  - destruct a as [|x a]; [simpl in Hlen; lia|].
    injection H as -> H. apply (IH a); [done|]. simpl in Hlen. lia.
Qed.

(** The components of an accepted path below the vault are valid names. *)
Lemma safe_vault_path_valid dest fpath :
  _safe_vault_path dest = Some fpath →
  ∃ r, pathlib.parts fpath = pathlib.parts VAULT ++ r ∧
       Forall (λ x, valid_name x = true) r.
Proof.
  intros Hsafe.
  destruct (proj1 (safe_vault_path_iff dest fpath) Hsafe)
    as (_ & Hres & _ & r & Hr & Hclean & _).
  exists r. split; [done|].
  assert (Hfrom : ∃ s, Forall (λ x, x = ".." ∨ valid_name x = true) (s ++ r)).
  { rewrite Hres in Hr. unfold pathlib.resolve, pathlib.div, pathlib.joinpath in Hr.
    pose proof (parse_parts_valid dest) as Hd.
    cbn [pathlib.parts] in Hr.
    destruct (Str.nonempty (pathlib.root (pathlib.parse dest))) eqn:Habs.
    - rewrite Habs in Hr.
      change (pathlib.normalize [] (pathlib.parts (pathlib.parse dest))
              = pathlib.parts VAULT ++ r) in Hr.
      destruct (normalize_from _ _ Hd []) as (k & pushed & Hn & Hp).
      rewrite Hn, drop_nil in Hr. simpl in Hr.
      exists (pathlib.parts VAULT). by rewrite <- Hr.
    - cbn [pathlib.root pathlib.parts] in Hr. rewrite VAULT_root in Hr.
      change (pathlib.normalize []
                (pathlib.parts VAULT ++ pathlib.parts (pathlib.parse dest))
              = pathlib.parts VAULT ++ r) in Hr.
      rewrite normalize_app in Hr.
      rewrite (normalize_id_acc [] _ VAULT_clean) in Hr.
      cbn [List.rev app] in Hr.
      destruct (normalize_from _ _ Hd (List.rev (pathlib.parts VAULT)))
        as (k & pushed & Hn & Hp).
      rewrite Hn in Hr. symmetry in Hr.
      apply app_suffix_inv in Hr as [s ->].
      + exists s. done.
      + rewrite length_rev, length_drop, length_rev. lia. }
  destruct Hfrom as [s Hs]. apply Forall_app in Hs as [_ Hs].
  unfold clean in Hclean. rewrite Forall_forall in Hs, Hclean |- *. intros x Hx.
  destruct (Hs x Hx) as [->|]; [|done]. by specialize (Hclean _ Hx).
Qed.

(** *** The upload loop ends *)










Lemma get_entry_None x es : x ∉ es.*1 → fs.get_entry x es = None.
Proof.
  induction es as [|[y n] es IH]; [done|]. simpl. intros Hx.
  apply not_elem_of_cons in Hx as [Hne Hx].
  destruct (String.eqb_spec y x); [done|]. by apply IH.
Qed.













(** ** Editing, deleting and creating *)

(** The path the server reports for an accepted file leads back to it. *)
Lemma safe_vault_path_round_trip d p :
  _safe_vault_path d = Some p →
  ∃ r, pathlib.relative_to p VAULT = Some (mkPath "" r) ∧
       pathlib.parts p = pathlib.parts VAULT ++ r ∧
       VAULT // pathlib.str (mkPath "" r) = p ∧
       _safe_vault_path (pathlib.str (mkPath "" r)) = Some p.
Proof.
  intros Hsafe.
  destruct (safe_vault_path_shape _ _ Hsafe) as (Hroot & Hcl & r & Hparts & Hrel).
  destruct (safe_vault_path_valid _ _ Hsafe) as (r' & Hparts' & Hvalid).
  rewrite Hparts in Hparts'. apply app_inv_head in Hparts' as <-.
  pose proof (proj1 (safe_vault_path_iff _ _) Hsafe) as (_ & _ & Hadm).
  exists r. split; [done|]. split; [done|].
  assert (Hdiv : VAULT // pathlib.str (mkPath "" r) = p).
  { destruct p as [rt ps]. simpl in Hroot, Hparts. subst rt ps.
    destruct r as [|x r].
    - unfold pathlib.div, pathlib.joinpath. simpl. by rewrite VAULT_root.
    - unfold pathlib.div. rewrite (parse_str_relative (x :: r)) by done.
      unfold pathlib.joinpath. simpl. by rewrite VAULT_root. }
  split; [done|].
  apply safe_vault_path_iff. split; [|split; [|done]].
  - destruct r as [|x r]; [done|]. intros Hempty.
    pose proof (parse_str_relative (x :: r)) as Hp. rewrite Hempty in Hp.
    by specialize (Hp ltac:(done) Hvalid).
  - rewrite Hdiv. unfold pathlib.resolve. rewrite Hroot. simpl.
    rewrite normalize_id_acc by done. by destruct p; simpl in *; subst.
Qed.


Lemma stat_absolute root p :
  pathlib.root p = "/" → fs.stat cwd root p = fs.walk [] root (pathlib.parts p).
Proof. unfold fs.stat, fs.abs_parts. by intros ->. Qed.

Lemma body_content_string s : body_content (BodyDict (Some (Some s))) = inr s.
Proof. done. Qed.

(** A PUT that passes the sandbox, finds a regular file and passes the
    permission test writes the content. *)
Lemma api_note_put_ok st req note_path fpath rel body content :
  _safe_vault_path note_path = Some fpath →
  fs.is_file cwd (st_fs st) fpath = true →
  pathlib.relative_to fpath VAULT = Some rel →
  _sid_owns st req (pathlib.str rel) = true →
  body_content body = inr content →
  ∃ root',
    fs.write_at (pathlib.parts fpath) content (wall_clock req) (st_fs st)
      = Some root' ∧
    _api_note_put st req note_path body
      = (Ok200 (PutOk (pathlib.str rel) (wall_clock req)),
         _invalidate_tree_cache
           (mkState root' (_session_files st) (_tree_cache st))) ∧
    fs.stat cwd root' fpath = Some (File content (wall_clock req)).
Proof.
  intros Hsafe Hfile Hrel Hown Hbody.
  destruct (safe_vault_path_shape _ _ Hsafe) as (Hroot & Hcl & _).
  destruct (is_file_walk _ _ Hroot Hfile) as (c0 & m0 & Hw).
  destruct (write_at_existing _ content (wall_clock req) Hcl _ _ _ _ Hw)
    as (root' & Hwr & Hread).
  exists root'. split; [done|].
  assert (Hstat : fs.stat cwd root' fpath = Some (File content (wall_clock req))).
  { rewrite stat_absolute by done. apply Hread. }
  split; [|done].
  unfold _api_note_put. rewrite Hsafe, Hfile, Hrel. cbn [negb].
  rewrite Hown, Hbody. cbn [negb]. rewrite Hwr.
  unfold fs.st_mtime. by rewrite Hstat.
Qed.






Lemma get_del_entry_ne x y es :
  x ≠ y → fs.get_entry y (fs.del_entry x es) = fs.get_entry y es.
Proof.
  intros Hne. induction es as [|[z n] es IH]; [done|]. simpl.
  destruct (String.eqb_spec z x) as [->|Hzx].
  - by destruct (String.eqb_spec x y).
  - simpl. by rewrite IH.
Qed.

Lemma get_del_entry_eq x es :
  NoDup es.*1 → fs.get_entry x (fs.del_entry x es) = None.
Proof.
  induction es as [|[z n] es IH]; [done|]. simpl. intros Hnd.
  apply NoDup_cons in Hnd as [Hz Hnd].
  destruct (String.eqb_spec z x) as [->|Hzx].
  - by apply get_entry_None.
  - simpl. destruct (String.eqb_spec z x); [done|]. by apply IH.
Qed.

Lemma unique_names_NoDup es : unique_names (Dir es) = true → NoDup es.*1.
Proof.
  simpl. intros H. apply andb_prop in H as [H _].
  by apply bool_decide_eq_true in H.
Qed.

Lemma walk_cons x l es anc :
  x ≠ ".." →
  fs.walk anc (Dir es) (x :: l)
  = match fs.get_entry x es with
    | Some c => fs.walk (Dir es :: anc) c l
    | None => None
    end.
Proof. intros Hx. apply String.eqb_neq in Hx. simpl. by rewrite Hx. Qed.

Lemma unlink_at_cons x z l es :
  fs.unlink_at (x :: z :: l) (Dir es)
  = match fs.get_entry x es with
    | Some ch =>
        match fs.unlink_at (z :: l) ch with
        | Some ch' => Some (Dir (fs.set_entry x ch' es))
        | None => None
        end
    | None => None
    end.
Proof. done. Qed.

(** Unlinking a path leaves every regular file at another path as it
    was, and the path names nothing afterwards. *)
Lemma unlink_at_other l :
  clean l → ∀ n n', fs.unlink_at l n = Some n' →
  ∀ q, clean q → q ≠ l → ∀ anc anc' c0 m0,
  fs.walk anc n q = Some (File c0 m0) → fs.walk anc' n' q = Some (File c0 m0).
Proof.
  induction 1 as [|x l Hx Hl IH]; intros n n' Hun q Hq Hne anc anc' c0 m0 Hw.
  { by destruct n. }
  apply String.eqb_neq in Hx.
  destruct n as [|es]; [by destruct l|].
  destruct Hq as [|y q Hy Hq]; [done|].
  apply String.eqb_neq in Hy. cbn [fs.walk] in Hw |- *. rewrite Hy in Hw.
  destruct (fs.get_entry y es) as [ch|] eqn:Hch; [|done].
  destruct l as [|z l].
  - cbn [fs.unlink_at] in Hun.
    destruct (fs.get_entry x es) as [[c1 m1|]|] eqn:Hcx; [|done..].
    injection Hun as <-. cbn [fs.walk]. rewrite Hy.
    destruct (String.eqb_spec x y) as [->|Hxy].
    + rewrite Hcx in Hch. injection Hch as <-.
      destruct q; [done|]. done.
    + rewrite get_del_entry_ne, Hch by done.
      by rewrite (walk_clean_anc q Hq _ (Dir es :: anc)).
  - rewrite unlink_at_cons in Hun.
    destruct (fs.get_entry x es) as [chx|] eqn:Hcx; [|done].
    destruct (fs.unlink_at (z :: l) chx) as [chx'|] eqn:Hun'; [|done].
    injection Hun as <-. cbn [fs.walk]. rewrite Hy.
    destruct (String.eqb_spec x y) as [->|Hxy].
    + rewrite get_set_entry_eq. rewrite Hcx in Hch. injection Hch as ->.
      eapply IH; [exact Hun'|done| |exact Hw]. congruence.
    + rewrite get_set_entry_ne, Hch by done.
      by rewrite (walk_clean_anc q Hq _ (Dir es :: anc)).
Qed.

Lemma unlink_at_gone l :
  clean l → ∀ n n', unique_names n = true → fs.unlink_at l n = Some n' →
  ∀ anc, fs.walk anc n' l = None.
Proof.
  induction 1 as [|x l Hx Hl IH]; intros n n' Huniq Hun anc.
  { by destruct n. }
  apply String.eqb_neq in Hx.
  destruct n as [|es]; [by destruct l|].
  destruct l as [|z l].
  - cbn [fs.unlink_at] in Hun.
    destruct (fs.get_entry x es) as [[c1 m1|]|] eqn:Hcx; [|done..].
    injection Hun as <-. cbn [fs.walk]. rewrite Hx.
    by rewrite get_del_entry_eq by (by apply unique_names_NoDup).
  - rewrite unlink_at_cons in Hun.
    destruct (fs.get_entry x es) as [chx|] eqn:Hcx; [|done].
    destruct (fs.unlink_at (z :: l) chx) as [chx'|] eqn:Hun'; [|done].
    injection Hun as <-.
    rewrite walk_cons, get_set_entry_eq by (by apply String.eqb_neq).
    eapply IH; [|exact Hun'].
    by destruct (unique_names_entry x chx es Huniq (get_entry_elem _ _ _ Hcx)).
Qed.

(** A DELETE that passes the sandbox, finds a regular file and passes the
    permission test unlinks it. *)
Lemma api_note_delete_ok st req note_path fpath rel :
  fs.is_dir_node (st_fs st) = true →
  _safe_vault_path note_path = Some fpath →
  fs.is_file cwd (st_fs st) fpath = true →
  pathlib.relative_to fpath VAULT = Some rel →
  _sid_owns st req (pathlib.str rel) = true →
  ∃ root',
    fs.unlink_at (pathlib.parts fpath) (st_fs st) = Some root' ∧
    _api_note_delete st req note_path
    = (Ok200 DeleteOk,
       _invalidate_tree_cache
         (mkState root'
            match _session_files st !! default "" (cookie req) with
            | Some owned =>
                <[default "" (cookie req) := (owned ∖ {[pathlib.str rel]})]>
                  (_session_files st)
            | None => _session_files st
            end (_tree_cache st))).
Proof.
  intros Hdir Hsafe Hfile Hrel Hown.
  destruct (safe_vault_path_shape _ _ Hsafe) as (Hroot & Hcl & _).
  destruct (is_file_walk _ _ Hroot Hfile) as (c0 & m0 & Hw).
  assert (Hne : pathlib.parts fpath ≠ []).
  { intros Hnil. rewrite Hnil in Hw. injection Hw as Hw.
    by rewrite Hw in Hdir. }
  destruct (unlink_at_existing _ Hcl _ _ _ _ Hw Hne) as (root' & Hun).
  exists root'. split; [done|].
  unfold _api_note_delete. rewrite Hsafe, Hfile, Hrel. cbn [negb].
  by rewrite Hown, Hun.
Qed.

(** X3.  A DELETE on a path the sandbox accepts that names a regular file
    the caller may delete removes exactly that file: the path names
    nothing afterwards, every other regular file is as it was, the
    ownership sets of the other sessions are unchanged and the caller's
    no longer holds the path, the fingerprint cache is emptied, and a
    second DELETE or a PUT on the same path is answered 404 without any
    effect. *)
Theorem delete_removes_exactly st req note_path fpath rel :
  fs.is_dir_node (st_fs st) = true → unique_names (st_fs st) = true →
  _safe_vault_path note_path = Some fpath →
  fs.is_file cwd (st_fs st) fpath = true →
  pathlib.relative_to fpath VAULT = Some rel →
  _sid_owns st req (pathlib.str rel) = true →
  ∃ st',
    _api_note_delete st req note_path = (Ok200 DeleteOk, st') ∧
    fs.exists_ cwd (st_fs st') fpath = false ∧
    (∀ q c m, clean q → q ≠ pathlib.parts fpath →
       fs.walk [] (st_fs st) q = Some (File c m) →
       fs.walk [] (st_fs st') q = Some (File c m)) ∧
    (∀ sid, sid ≠ default "" (cookie req) →
       _session_files st' !! sid = _session_files st !! sid) ∧
    (pathlib.str rel ∉ owned_by st' req) ∧
    _tree_cache st' = mkTreeCache None 0 ∧
    _api_note_delete st' req note_path = (Abort 404, st') ∧
    (∀ body, _api_note_put st' req note_path body = (Abort 404, st')).
Proof.
  intros Hdir Huniq Hsafe Hfile Hrel Hown.
  destruct (api_note_delete_ok st req note_path fpath rel Hdir Hsafe Hfile Hrel Hown)
    as (root' & Hun & Hdel).
  destruct (safe_vault_path_shape _ _ Hsafe) as (Hroot & Hcl & _).
  pose proof (unlink_at_gone _ Hcl _ _ Huniq Hun []) as Hgone.
  assert (Hstat : fs.stat cwd root' fpath = None).
  { by rewrite stat_absolute. }
  eexists. split; [exact Hdel|].
  cbn [_invalidate_tree_cache st_fs _session_files _tree_cache].
  split. { unfold fs.exists_. rewrite Hstat. apply bool_decide_eq_false. by intros [? ?]. }
  split. { intros q c m Hq Hne Hw.
           by apply (unlink_at_other _ Hcl _ _ Hun q Hq Hne [] [] c m). }
  split. { intros sid Hsid.
           destruct (_session_files st !! default "" (cookie req)); [|done].
           by rewrite lookup_insert_ne. }
  split. { unfold owned_by, _invalidate_tree_cache. cbn [_session_files].
           destruct (_session_files st !! default "" (cookie req)) as [owned|] eqn:Ho.
           - rewrite lookup_insert_eq. simpl. rewrite elem_of_difference.
             intros [_ Hn]. apply Hn. by apply elem_of_singleton.
           - rewrite Ho. simpl. apply not_elem_of_empty. }
  split; [done|].
  assert (Hnofile : ∀ st'', st_fs st'' = root' →
    fs.is_file cwd (st_fs st'') fpath = false).
  { intros st'' ->. unfold fs.is_file. by rewrite Hstat. }
  split.
  - match goal with |- _api_note_delete ?s _ _ = _ =>
      pose proof (Hnofile s eq_refl) as Hnf end.
    unfold _api_note_delete. by rewrite Hsafe, Hnf.
  - intros body.
    match goal with |- _api_note_put ?s _ _ _ = _ =>
      pose proof (Hnofile s eq_refl) as Hnf end.
    unfold _api_note_put. by rewrite Hsafe, Hnf.
Qed.

(** ** Creating files *)

(** Creating the parents of a path that names nothing and writing to it:
    the file is there afterwards and every regular file that was there
    before is as it was. *)
Lemma create_effect root fpath content m root1 root2 :
  pathlib.root fpath = "/" → clean (pathlib.parts fpath) →
  fs.exists_ cwd root fpath = false →
  fs.mkdir_p (pathlib.parts (pathlib.parent fpath)) root = Some root1 →
  fs.write_at (pathlib.parts fpath) content m root1 = Some root2 →
  fs.stat cwd root2 fpath = Some (File content m) ∧
  ∀ q c0 m0, clean q →
    fs.walk [] root q = Some (File c0 m0) → fs.walk [] root2 q = Some (File c0 m0).
Proof.
  intros Hr Hcl Hex Hmk Hwr. split.
  { rewrite stat_absolute by done. by apply (write_at_read _ _ _ Hcl _ _ Hwr). }
  intros q c0 m0 Hq Hw.
  pose proof (mkdir_p_frame _ _ _ Hmk q Hq [] [] c0 m0 Hw) as Hw1.
  apply exists_walk in Hex; [|done].
  assert (Hne : pathlib.parts fpath ≠ []).
  { intros Hnil. by rewrite Hnil in Hex. }
  unfold pathlib.parent in Hmk. cbn [pathlib.parts] in Hmk.
  destruct (exists_last Hne) as (l & x & Hl). rewrite Hl in *.
  rewrite removelast_last in Hmk.
  eapply (write_at_frame _ Hcl _ _ _ _ Hwr); [|done|exact Hw1].
  eapply mkdir_p_fresh; [done|exact Hmk|].
  intros anc. by rewrite (walk_clean_anc _ Hcl anc []).
Qed.

Lemma created_session st2 req sid needs_set st3 rel_str :
  _get_or_create_sid st2 req = (sid, needs_set, st3) →
  sid = creator req (if needs_set then Some sid else None) ∧
  st_fs st3 = st_fs st2 ∧
  ∀ st4, _session_files st4
         = <[sid := {[rel_str]} ∪ default ∅ (_session_files st3 !! sid)]>
             (_session_files st3) →
    (∀ req', cookie req' = Some sid → _sid_owns st4 req' rel_str = true) ∧
    (∀ sid', sid' ≠ sid → _session_files st4 !! sid' = _session_files st2 !! sid').
Proof.
  intros Hsid.
  assert (Hown : ∀ st4, _session_files st4
         = <[sid := {[rel_str]} ∪ default ∅ (_session_files st3 !! sid)]>
             (_session_files st3) →
    ∀ req', cookie req' = Some sid → _sid_owns st4 req' rel_str = true).
  { intros st4 Hs req' Hc. unfold _sid_owns. destruct ALLOW_EDIT_ALL; [done|].
    rewrite Hc, Hs. simpl. rewrite lookup_insert_eq.
    apply bool_decide_eq_true. apply elem_of_union_l. by apply elem_of_singleton. }
  unfold _get_or_create_sid, creator in *.
  destruct (cookie req) as [sid0|] eqn:Hcookie.
  - destruct (Str.nonempty sid0 && _) eqn:Hknown.
    + injection Hsid as <- <- <-. split; [done|]. split; [done|].
      intros st4 Hs. split; [by apply Hown|].
      intros sid' Hne. by rewrite Hs, lookup_insert_ne.
    + injection Hsid as <- <- <-. split; [done|]. split; [done|].
      intros st4 Hs. split; [by apply Hown|].
      intros sid' Hne. rewrite Hs. simpl. by rewrite !lookup_insert_ne.
  - injection Hsid as <- <- <-. split; [done|]. split; [done|].
    intros st4 Hs. split; [by apply Hown|].
    intros sid' Hne. rewrite Hs. simpl. by rewrite !lookup_insert_ne.
Qed.

(** What a request to create a note that answers with a created path
    went through. *)
Lemma new_created st req body rel_str set_cookie st' :
  api_files_new st req body = (Ok200 (CreatedOk rel_str set_cookie), st') →
  ∃ clean_path fpath root1 rel sid needs_set st3,
    _safe_vault_path clean_path = Some fpath ∧
    fs.exists_ cwd (st_fs st) fpath = false ∧
    fs.mkdir_p (pathlib.parts (pathlib.parent fpath)) (st_fs st) = Some root1 ∧
    fs.write_at (pathlib.parts fpath) "" (wall_clock req) root1
      = Some (st_fs st') ∧
    pathlib.relative_to fpath VAULT = Some rel ∧ rel_str = pathlib.str rel ∧
    _get_or_create_sid
      (mkState (st_fs st') (_session_files st) (_tree_cache st)) req
      = (sid, needs_set, st3) ∧
    set_cookie = (if needs_set then Some sid else None) ∧
    _session_files st'
      = <[sid := {[rel_str]} ∪ default ∅ (_session_files st3 !! sid)]>
          (_session_files st3) ∧
    _tree_cache st' = mkTreeCache None 0.
Proof.
  unfold api_files_new. intros H.
  destruct (negb ALLOW_FILE_CREATION); [done|].
  destruct (new_path body) as [failure|raw_path] eqn:Hbody.
  { destruct body as [| |[[s|]|]]; simpl in Hbody; try done;
      injection Hbody as <-; done. }
  destruct (negb (Str.nonempty raw_path)); [done|].
  destruct (negb (forallb _ _)); [done|].
  destruct (_safe_vault_path _) as [fpath|] eqn:Hsafe; [|done].
  destruct (fs.exists_ cwd (st_fs st) fpath) eqn:Hex; [done|].
  destruct (fs.mkdir_p _ (st_fs st)) as [root1|] eqn:Hmk; [|done].
  destruct (fs.write_at _ _ _ root1) as [root2|] eqn:Hwr; [|done].
  destruct (pathlib.relative_to fpath VAULT) as [rel|] eqn:Hrel; [|done].
  pose proof (get_or_create_sid_fs
                (mkState root2 (_session_files st) (_tree_cache st)) req) as Hfs.
  destruct (_get_or_create_sid _ req) as [[sid needs_set] st3] eqn:Hsid.
  injection H as <- <- <-. simpl in *. rewrite Hfs.
  eexists _, fpath, root1, rel, sid, needs_set, st3.
  by repeat split.
Qed.

(** What the creator of a file can do with it afterwards. *)
Lemma creator_can_edit st' fpath clean_path rel content m :
  _safe_vault_path clean_path = Some fpath →
  pathlib.relative_to fpath VAULT = Some rel →
  fs.stat cwd (st_fs st') fpath = Some (File content m) →
  ∀ req', _sid_owns st' req' (pathlib.str rel) = true →
  ∀ s, ∃ st'',
    _api_note_put st' req' (pathlib.str rel) (BodyDict (Some (Some s)))
      = (Ok200 (PutOk (pathlib.str rel) (wall_clock req')), st'') ∧
    fs.read_text cwd (st_fs st'') fpath = Some s.
Proof.
  intros Hsafe Hrel Hstat req' Hown s.
  destruct (safe_vault_path_round_trip _ _ Hsafe) as (r & Hrel' & _ & _ & Hback).
  rewrite Hrel in Hrel'. injection Hrel' as ->.
  assert (Hfile : fs.is_file cwd (st_fs st') fpath = true).
  { unfold fs.is_file. by rewrite Hstat. }
  destruct (api_note_put_ok st' req' _ fpath _ _ s Hback Hfile Hrel Hown
              (body_content_string s)) as (root' & _ & Hput & Hstat').
  eexists. split; [exact Hput|].
  unfold fs.read_text. simpl. by rewrite Hstat'.
Qed.

(** X4.  When [api_files_new] answers with a created path, that path
    named nothing before the request; afterwards it is accepted by the
    sandbox and names an empty regular file, every regular file that
    existed before is as it was, the ownership sets of the other sessions
    are unchanged, the fingerprint cache is emptied, and every later
    request of the creating session may edit the file: a PUT on the
    reported path replaces its content. *)
Theorem new_note_created st req body rel_str set_cookie st' :
  api_files_new st req body = (Ok200 (CreatedOk rel_str set_cookie), st') →
  ∃ fpath,
    _safe_vault_path rel_str = Some fpath ∧
    fs.exists_ cwd (st_fs st) fpath = false ∧
    fs.read_text cwd (st_fs st') fpath = Some "" ∧
    fs.st_mtime cwd (st_fs st') fpath = Some (wall_clock req) ∧
    (∀ q c m, clean q →
       fs.walk [] (st_fs st) q = Some (File c m) →
       fs.walk [] (st_fs st') q = Some (File c m)) ∧
    (∀ sid', sid' ≠ creator req set_cookie →
       _session_files st' !! sid' = _session_files st !! sid') ∧
    _tree_cache st' = mkTreeCache None 0 ∧
    (∀ req' s, cookie req' = Some (creator req set_cookie) →
       ∃ st'',
         _api_note_put st' req' rel_str (BodyDict (Some (Some s)))
           = (Ok200 (PutOk rel_str (wall_clock req')), st'') ∧
         fs.read_text cwd (st_fs st'') fpath = Some s).
Proof.
  intros H.
  destruct (new_created _ _ _ _ _ _ H)
    as (clean_path & fpath & root1 & rel & sid & needs_set & st3
        & Hsafe & Hex & Hmk & Hwr & Hrel & -> & Hsid & -> & Hsessions & Hcache).
  destruct (safe_vault_path_shape _ _ Hsafe) as (Hroot & Hcl & _).
  destruct (create_effect _ _ _ _ _ _ Hroot Hcl Hex Hmk Hwr) as [Hstat Hframe].
  destruct (created_session _ _ _ _ _ (pathlib.str rel) Hsid)
    as (Hcreator & _ & Howned).
  destruct (Howned st' Hsessions) as [Hown Hothers].
  destruct (safe_vault_path_round_trip _ _ Hsafe) as (r & Hrel' & _ & _ & Hback).
  rewrite Hrel in Hrel'. injection Hrel' as ->.
  exists fpath. split; [done|]. split; [done|].
  unfold fs.read_text, fs.st_mtime. rewrite Hstat.
  split; [done|]. split; [done|]. split; [done|].
  rewrite <- Hcreator. split; [done|]. split; [done|].
  intros req' s Hc.
  by apply (creator_can_edit st' fpath clean_path _ "" (wall_clock req)
              Hsafe Hrel Hstat req' (Hown req' Hc) s).
Qed.




(** X6.  A request to edit, delete, create or upload that is answered
    with an error status (an [abort] or a JSON error body) changes
    nothing: the filesystem, the ownership sets and the fingerprint cache
    are as before. *)
Theorem refused_requests_change_nothing st req :
  (∀ note_path body resp st',
     _api_note_put st req note_path body = (resp, st') →
     (∃ code, resp = Abort code) ∨ (∃ code msg, resp = JsonError code msg) →
     st' = st) ∧
  (∀ note_path resp st',
     _api_note_delete st req note_path = (resp, st') →
     (∃ code, resp = Abort code) ∨ (∃ code msg, resp = JsonError code msg) →
     st' = st) ∧
  (∀ body resp st',
     api_files_new st req body = (resp, st') →
     (∃ code, resp = Abort code) ∨ (∃ code msg, resp = JsonError code msg) →
     st' = st) ∧
  (∀ fuel file folder_field resp st',
     api_files_upload fuel st req file folder_field = Done (resp, st') →
     (∃ code, resp = Abort code) ∨ (∃ code msg, resp = JsonError code msg) →
     st' = st).
Proof.
  assert (Herr : ∀ resp : Response,
    (∃ code, resp = Abort code) ∨ (∃ code msg, resp = JsonError code msg) →
    resp ≠ Uncaught ∧ ∀ b, resp ≠ Ok200 b).
  { intros resp [[code ->]|(code & msg & ->)]; by split. }
  repeat split.
  - intros note_path body resp st'. unfold _api_note_put. intros H He.
    apply Herr in He as [Hu Hok].
    repeat (match type of H with
            | (match ?x with _ => _ end) = _ => destruct x
            | (if ?b then _ else _) = _ => destruct b
            end; try done;
            try (injection H as <- <-;
                 first [done | by exfalso; eapply Hok | by exfalso; apply Hu])).
  - intros note_path resp st'. unfold _api_note_delete. intros H He.
    apply Herr in He as [Hu Hok].
    repeat (match type of H with
            | (match ?x with _ => _ end) = _ => destruct x
            | (if ?b then _ else _) = _ => destruct b
            end; try done;
            try (injection H as <- <-;
                 first [done | by exfalso; eapply Hok | by exfalso; apply Hu])).
  - intros body resp st'. unfold api_files_new. intros H He.
    apply Herr in He as [Hu Hok].
    repeat (match type of H with
            | (match ?x with _ => _ end) = _ => destruct x
            | (if ?b then _ else _) = _ => destruct b
            end; try done;
            try (injection H as <- <-;
                 first [done | by exfalso; eapply Hok | by exfalso; apply Hu])).
  - intros fuel file folder_field resp st'. unfold api_files_upload. intros H He.
    apply Herr in He as [Hu Hok].
    repeat (match type of H with
            | (match ?x with _ => _ end) = _ => destruct x
            | (if ?b then _ else _) = _ => destruct b
            end; try done;
            try (injection H as <- <-;
                 first [done | by exfalso; eapply Hok | by exfalso; apply Hu])).
Qed.

(** ** Polling *)

(** What [api_check] reports for a file the sandbox accepts, asked for by
    the path the server reports for it. *)
Lemma api_check_accepted fuel st req d fpath r text m :
  _safe_vault_path d = Some fpath →
  pathlib.relative_to fpath VAULT = Some (mkPath "" r) →
  fs.stat cwd (st_fs st) fpath = Some (File text m) →
  api_check fuel st req (Some (pathlib.str (mkPath "" r)))
  = match _get_tree_hash fuel st req with
    | Done (tree_hash, st') => Done (Some m, tree_hash, st')
    | Raised => Raised
    | OutOfFuel => OutOfFuel
    end.
Proof.
  intros Hsafe Hrel Hstat.
  destruct (safe_vault_path_round_trip _ _ Hsafe) as (r' & Hrel' & _ & Hdiv & Hback).
  rewrite Hrel in Hrel'. injection Hrel' as <-.
  assert (Hne : Str.nonempty (pathlib.str (mkPath "" r)) = true).
  { apply nonempty_true. by apply (proj1 (safe_vault_path_iff _ _) Hback). }
  assert (Hex : fs.exists_ cwd (st_fs st) fpath = true).
  { unfold fs.exists_. rewrite Hstat. by apply bool_decide_eq_true_2. }
  assert (Hfile : fs.is_file cwd (st_fs st) fpath = true).
  { unfold fs.is_file. by rewrite Hstat. }
  unfold api_check, resolve_vault_path. rewrite Hne, Hdiv, Hex, Hfile.
  unfold fs.st_mtime. by rewrite Hstat.
Qed.

(** X7.  A write through the API is seen by the next poll.  After a PUT
    that succeeded, [api_check] for the reported path answers with the
    modification time the PUT gave the file and with a fingerprint
    computed from the filesystem as it is now, however recently the
    fingerprint had been cached before the PUT; that fingerprint is then
    the cached one. *)
Theorem poll_after_put st req note_path fpath rel s st' :
  _safe_vault_path note_path = Some fpath →
  pathlib.relative_to fpath VAULT = Some rel →
  _api_note_put st req note_path (BodyDict (Some (Some s)))
    = (Ok200 (PutOk (pathlib.str rel) (wall_clock req)), st') →
  ∀ fuel req',
    api_check fuel st' req' (Some (pathlib.str rel))
    = match fingerprint fuel (st_fs st') with
      | Done digest =>
          Done (Some (wall_clock req), digest,
                mkState (st_fs st') (_session_files st)
                        (mkTreeCache (Some digest) (monotonic req')))
      | Raised => Raised
      | OutOfFuel => OutOfFuel
      end.
Proof.
  intros Hsafe Hrel Hput fuel req'.
  destruct (safe_vault_path_shape _ _ Hsafe) as (Hroot & Hcl & r & _ & Hrel').
  rewrite Hrel in Hrel'. injection Hrel' as ->.
  unfold _api_note_put in Hput. rewrite Hsafe, Hrel in Hput.
  destruct (negb (fs.is_file cwd (st_fs st) fpath)); [done|].
  destruct (negb (_sid_owns st req _)); [done|].
  cbn [body_content] in Hput.
  destruct (fs.write_at _ _ _ (st_fs st)) as [root'|] eqn:Hwr; [|done].
  pose proof (write_at_read _ _ _ Hcl _ _ Hwr []) as Hread.
  assert (Hstat : fs.stat cwd root' fpath = Some (File s (wall_clock req))).
  { by rewrite stat_absolute. }
  unfold fs.st_mtime in Hput. rewrite Hstat in Hput. injection Hput as <-.
  match goal with |- api_check _ ?st1 _ _ = _ =>
    rewrite (api_check_accepted fuel st1 req' note_path fpath r s (wall_clock req)
               Hsafe Hrel Hstat)
  end.
  rewrite get_tree_hash_recomputed by done.
  cbn [_invalidate_tree_cache st_fs _session_files].
  by destruct (fingerprint fuel root').
Qed.

(** ** What the tree holds *)

(** Where every node of one level comes from. *)
Lemma tree_loop_items recurse fsroot rel owned entries items :
  tree_loop recurse fsroot rel owned entries = Done items →
  Forall (λ n, ∃ entry, entry ∈ entries ∧
      node_name n = pathlib.name entry ∧
      (pathlib.name entry ∉ EXCLUDED_DIRS) ∧
      (fs.is_file cwd fsroot entry = true → pathlib.name entry ∉ EXCLUDED_FILES) ∧
      match n with
      | Folder _ p ch =>
          p = pathlib.str (rel // pathlib.name entry) ∧
          fs.is_dir cwd fsroot entry = true ∧
          recurse (rel // pathlib.name entry) = Done ch
      | FileNode _ p e =>
          p = pathlib.str (rel // pathlib.name entry) ∧
          fs.is_dir cwd fsroot entry = false ∧
          e = ALLOW_EDIT_ALL || bool_decide (p ∈ owned)
      end) items.
Proof.
  revert items. induction entries as [|entry rest IH]; intros items H; simpl in H.
  { injection H as <-. constructor. }
  assert (Hweak : ∀ items', tree_loop recurse fsroot rel owned rest = Done items' →
    Forall (λ n, ∃ entry0, entry0 ∈ entry :: rest ∧
      node_name n = pathlib.name entry0 ∧
      (pathlib.name entry0 ∉ EXCLUDED_DIRS) ∧
      (fs.is_file cwd fsroot entry0 = true → pathlib.name entry0 ∉ EXCLUDED_FILES) ∧
      match n with
      | Folder _ p ch =>
          p = pathlib.str (rel // pathlib.name entry0) ∧
          fs.is_dir cwd fsroot entry0 = true ∧
          recurse (rel // pathlib.name entry0) = Done ch
      | FileNode _ p e =>
          p = pathlib.str (rel // pathlib.name entry0) ∧
          fs.is_dir cwd fsroot entry0 = false ∧
          e = ALLOW_EDIT_ALL || bool_decide (p ∈ owned)
      end) items').
  { intros items' H'. eapply Forall_impl; [exact (IH _ H')|].
    intros n (e & He & Hn). exists e. split; [by apply elem_of_cons; right|done]. }
  destruct (_ && bool_decide (_ ∈ EXCLUDED_DIRS)); [by apply Hweak|].
  destruct (bool_decide (_ ∈ EXCLUDED_DIRS)) eqn:Hd; [by apply Hweak|].
  apply bool_decide_eq_false in Hd.
  destruct (_ && bool_decide (_ ∈ EXCLUDED_FILES)) eqn:Hf; [by apply Hweak|].
  assert (Hfile : fs.is_file cwd fsroot entry = true →
                  pathlib.name entry ∉ EXCLUDED_FILES).
  { intros Hisf. rewrite Hisf in Hf. simpl in Hf. by apply bool_decide_eq_false in Hf. }
  destruct (fs.is_dir cwd fsroot entry) eqn:Hdir.
  - destruct (recurse _) as [children| |] eqn:Hrec; [|done..].
    destruct (tree_loop recurse fsroot rel owned rest) as [items'| |]; [|done..].
    injection H as <-. constructor; [|by apply Hweak].
    exists entry. split; [apply elem_of_cons; by left|]. by repeat split.
  - destruct (tree_loop recurse fsroot rel owned rest) as [items'| |]; [|done..].
    injection H as <-. constructor; [|by apply Hweak].
    exists entry. split; [apply elem_of_cons; by left|]. by repeat split.
Qed.

Lemma build_tree_flags fuel fsroot root owned :
  ∀ rel items,
  build_tree fuel fsroot root rel owned = Done items →
  tree_all (node_flags owned) items.
Proof.
  induction fuel as [|fuel IH]; intros rel items H; [done|]. simpl in H.
  destruct (fs.scandir cwd fsroot (pathlib.joinpath root rel)) as [es|]; [|done].
  apply tree_loop_items in H. constructor.
  - eapply Forall_impl; [exact H|]. intros n (e & _ & Hnm & Hd & _ & Hn).
    split; [by rewrite Hnm|]. destruct n; [done|]. by destruct Hn as (_ & _ & ?).
  - intros nm p ch Hin.
    destruct (proj1 (Forall_forall _ _) H _ Hin) as (e & _ & _ & _ & _ & _ & _ & Hrec).
    by eapply IH.
Qed.

Lemma clean_item_folder nm p ch :
  clean_item (Folder nm p ch) = Folder nm p (clean_tree ch).
Proof. reflexivity. Qed.

Lemma clean_tree_elem n items :
  n ∈ clean_tree items →
  ∃ x, x ∈ items ∧ dropped x = false ∧ n = clean_item x.
Proof.
  induction items as [|x items IH]; simpl; [by intros ?%elem_of_nil|].
  destruct (dropped x) eqn:Hx.
  - intros (y & Hy & ?)%IH. exists y. split; [by apply elem_of_cons; right|done].
  - intros [->|(y & Hy & ?)%IH]%elem_of_cons.
    + exists x. split; [apply elem_of_cons; by left|done].
    + exists y. split; [by apply elem_of_cons; right|done].
Qed.

Lemma node_name_clean_item x : node_name (clean_item x) = node_name x.
Proof. by destruct x. Qed.

(** [clean] keeps what holds of every node, whatever the children are,
    and leaves none of the names it drops. *)
Lemma clean_tree_all (P : TreeNode → Prop) items :
  (∀ nm p ch ch', P (Folder nm p ch) → P (Folder nm p ch')) →
  tree_all P items →
  tree_all (λ n, P n ∧ dropped n = false) (clean_tree items).
Proof.
  intros Hch. induction 1 as [items HP _ IH]. constructor.
  - apply Forall_forall. intros n (x & Hx & Hdrop & ->)%clean_tree_elem.
    pose proof (proj1 (Forall_forall _ _) HP x Hx) as HPx. split.
    + destruct x as [nm p ch|]; [|done]. rewrite clean_item_folder. by eapply Hch.
    + unfold dropped in *. by rewrite node_name_clean_item.
  - intros nm p ch' (x & Hx & Hdrop & Heq)%clean_tree_elem.
    destruct x as [nm0 p0 ch|]; [|done]. rewrite clean_item_folder in Heq.
    injection Heq as -> -> ->. by eapply IH.
Qed.

(** X8.  In every tree [build_tree] returns, at every depth, no node
    bears an excluded directory name and a file node is marked editable
    exactly when the edit-all switch is on or its path is in the
    ownership set given; for [api_tree] that set is the one of the
    caller's session.  In the tree of the static export, which is built
    with the empty set, a file is editable exactly when edit-all is on (so
    never under the default configuration), and no node is named [_site],
    [build_static.py] or [.github]. *)
Theorem tree_flags_invariant :
  (∀ fuel fsroot root rel owned items,
     build_tree fuel fsroot root rel owned = Done items →
     tree_all (node_flags owned) items) ∧
  (∀ fuel st req items,
     api_tree fuel st req = Done items →
     tree_all (node_flags (owned_by st req)) items) ∧
  (∀ fuel fsroot items,
     generate_tree fuel fsroot = Done items →
     tree_all (λ n, (node_name n ∉ EXCLUDED_DIRS) ∧
                    (node_name n ∉ ["_site"; "build_static.py"; ".github"]) ∧
                    ∀ nm p e, n = FileNode nm p e → e = ALLOW_EDIT_ALL) items).
Proof.
  split; [|split].
  - intros fuel fsroot root rel owned items. apply build_tree_flags.
  - intros fuel st req items. apply build_tree_flags.
  - intros fuel fsroot items. unfold generate_tree.
    destruct (build_tree fuel fsroot VAULT _ ∅) as [tree| |] eqn:Hb; [|done..].
    intros [= <-]. apply build_tree_flags in Hb.
    apply (clean_tree_all (node_flags ∅)) in Hb.
    2:{ intros nm p ch ch' [? _]. by split. }
    clear -Hb. induction Hb as [items HP _ IH]. constructor; [|exact IH].
    eapply Forall_impl; [exact HP|]. intros n [[Hd Hn] Hdrop].
    split; [done|]. split.
    + unfold dropped in Hdrop. intros Hin. apply list_elem_of_In in Hin.
      assert (existsb (String.eqb (node_name n))
                ["_site"; "build_static.py"; ".github"] = true); [|congruence].
      apply existsb_exists. exists (node_name n). split; [done|].
      apply String.eqb_refl.
    + intros nm p e ->. rewrite Hn.
      rewrite bool_decide_eq_false_2 by apply not_elem_of_empty.
      by rewrite orb_false_r.
Qed.










(** ** What the walker yields *)










(** ** Looking a note up *)




(** ** The tree and the other endpoints *)




(** ** The graph document hangs together *)

Lemma dict_set_keys {V : Type} k (v : V) d k' :
  k' ∈ (dict_set k v d).*1 ↔ k' = k ∨ k' ∈ d.*1.
Proof.
  induction d as [|[k0 v0] d IH]; simpl.
  - rewrite list_elem_of_singleton. split; [by left|].
    intros [?|?%elem_of_nil]; done.
  - destruct (String.eqb_spec k0 k) as [->|Hne]; simpl; rewrite !elem_of_cons.
    + split; [intros [?|?]; auto|intros [?|[?|?]]; auto].
    + rewrite IH. split; [intros [?|[?|?]]; auto|intros [?|[?|?]]; auto].
Qed.

Lemma dict_set_NoDup {V : Type} k (v : V) d :
  NoDup d.*1 → NoDup (dict_set k v d).*1.
Proof.
  induction d as [|[k0 v0] d IH]; simpl; intros Hnd.
  - apply NoDup_singleton.
  - apply NoDup_cons in Hnd as [Hk0 Hnd].
    destruct (String.eqb_spec k0 k) as [->|Hne]; simpl.
    + by apply NoDup_cons.
    + apply NoDup_cons. split; [|by apply IH].
      rewrite dict_set_keys. intros [?|?]; done.
Qed.

Lemma dict_set_Forall {V : Type} (P : string * V → Prop) k (v : V) d :
  P (k, v) → Forall P d → Forall P (dict_set k v d).
Proof.
  intros Hv. induction 1 as [|[k0 v0] d H0 Hd IH]; simpl.
  - by repeat constructor.
  - destruct (String.eqb k0 k); by constructor.
Qed.

Lemma dict_has_keys {V : Type} k (d : list (string * V)) :
  dict_has k d = true → k ∈ d.*1.
Proof.
  unfold dict_has. intros ([k0 v0] & Hin & Heq)%existsb_exists.
  apply String.eqb_eq in Heq. simpl in Heq. subst k0.
  apply list_elem_of_fmap. exists (k, v0). split; [done|by apply list_elem_of_In].
Qed.

Lemma collected_ok_set k n (nodes : list (string * GraphNode)) (edges : list Edge)
    folders_seen :
  node_id n = k → node_path n = k →
  collected_ok (nodes, edges, folders_seen) →
  collected_ok (dict_set k n nodes, edges, folders_seen).
Proof.
  intros Hid Hpath (Hnd & Hids & Hends & Hseen). unfold collected_ok in *. simpl in *.
  split; [by apply dict_set_NoDup|]. split; [by apply dict_set_Forall|]. split.
  - eapply Forall_impl; [exact Hends|]. intros e [? ?].
    rewrite !dict_set_keys. by split; right.
  - intros k' Hk'. rewrite dict_set_keys. right. by apply Hseen.
Qed.

Lemma ancestors_loop_ok rev_parent :
  ∀ child_path (acc : Collected),
  collected_ok acc → child_path ∈ acc.1.1.*1 →
  collected_ok (ancestors_loop rev_parent child_path acc).
Proof.
  induction rev_parent as [|x up IH]; intros child_path [[nodes edges] seen] Hok Hchild;
    [done|].
  cbn [ancestors_loop].
  set (parent := mkPath "" (List.rev (x :: up))).
  destruct (String.eqb (pathlib.str parent) "."); [done|].
  simpl in Hchild.
  case_bool_decide as Hseen.
  - apply IH.
    + destruct Hok as (Hnd & Hids & Hends & Hs). unfold collected_ok. simpl in *.
      repeat split; [done..| |done].
      apply Forall_app. split; [done|]. repeat constructor; simpl; [|done].
      by apply Hs.
    + simpl. destruct Hok as (_ & _ & _ & Hs). by apply Hs.
  - apply IH.
    + pose proof (collected_ok_set (pathlib.str parent)
                    (mkGraphNode (pathlib.str parent) (pathlib.name parent)
                                 (pathlib.str parent) folder None)
                    nodes edges seen eq_refl eq_refl Hok)
        as (Hnd & Hids & Hends & Hs).
      unfold collected_ok. simpl in *. repeat split; [done..| |].
      * apply Forall_app. split; [done|]. repeat constructor; simpl.
        -- apply dict_set_keys. by left.
        -- apply dict_set_keys. by right.
      * intros k [->%elem_of_singleton|Hk]%elem_of_union.
        -- apply dict_set_keys. by left.
        -- by apply Hs.
    + simpl. apply dict_set_keys. by left.
Qed.

Lemma add_file_ok p rel (acc : Collected) :
  collected_ok acc → collected_ok (add_file p rel acc).
Proof.
  destruct acc as [[nodes edges] seen]. intros Hok. unfold add_file.
  apply ancestors_loop_ok.
  - by apply collected_ok_set.
  - simpl. apply dict_set_keys. by left.
Qed.

Lemma collected_ok_empty : collected_ok ([], [], ∅).
Proof.
  unfold collected_ok. simpl. repeat split; try constructor.
  by intros k ?%not_elem_of_empty.
Qed.

Lemma graph_files_ok root : collected_ok (graph_files root).
Proof.
  unfold graph_files. apply fold_left_invariant; [apply collected_ok_empty|].
  intros acc p _ Hacc. destruct (negb _); [done|].
  destruct (pathlib.relative_to p VAULT) as [rel|]; [|done].
  destruct (any_excluded_dir _); [done|]. destruct (bool_decide _); [done|].
  by apply add_file_ok.
Qed.

Lemma graph_of_files_ok files : collected_ok (graph_of_files files).
Proof.
  unfold graph_of_files. apply fold_left_invariant; [apply collected_ok_empty|].
  intros acc rel _ Hacc. by apply add_file_ok.
Qed.

Lemma link_edges_ends root (ns : list (string * GraphNode)) :
  Forall (λ e, source e ∈ ns.*1 ∧ target e ∈ ns.*1) (link_edges root ns).
Proof.
  apply Forall_forall. intros e He. unfold link_edges in He.
  apply list_elem_of_bind in He as ([k n] & He & Hkn). simpl in He.
  destruct (bool_decide _); [|by apply elem_of_nil in He].
  destruct (fs.read_text _ _ _); [|by apply elem_of_nil in He].
  unfold note_links in He. apply list_elem_of_omap in He as (m & _ & Hm).
  destruct (resolve_target root m.1) as [tp|]; [|done].
  destruct (Str.nonempty tp && dict_has tp ns && _) eqn:Hc; [|done].
  injection Hm as <-. simpl.
  apply andb_prop in Hc as [Hc _]. apply andb_prop in Hc as [_ Hc].
  split; [|by apply dict_has_keys].
  apply list_elem_of_fmap. by exists (k, n).
Qed.

Lemma bump_lookup k' counts k :
  default 0%nat (bump k' counts !! k)
  = (default 0 (counts !! k) + if String.eqb k' k then 1 else 0)%nat.
Proof.
  unfold bump. destruct (String.eqb_spec k' k) as [->|Hne].
  - by rewrite lookup_insert_eq.
  - rewrite lookup_insert_ne by done. lia.
Qed.

Lemma degree_cons e (es : list Edge) k :
  degree (e :: es) k
  = ((if String.eqb (source e) k then 1 else 0)
     + (if String.eqb (target e) k then 1 else 0) + degree es k)%nat.
Proof.
  unfold degree. simpl.
  destruct (String.eqb (source e) k), (String.eqb (target e) k); simpl; lia.
Qed.

Lemma count_links_fold (es : list Edge) acc k :
  default 0%nat
    (fold_left (λ counts e, bump (target e) (bump (source e) counts)) es acc !! k)
  = (default 0 (acc !! k) + degree es k)%nat.
Proof.
  revert acc. induction es as [|e es IH]; intros acc.
  { unfold degree. simpl. lia. }
  cbn [fold_left]. rewrite IH, !bump_lookup, degree_cons. lia.
Qed.

Lemma count_links_degree (es : list Edge) k :
  default 0%nat (count_links es !! k) = degree es k.
Proof. unfold count_links. by rewrite count_links_fold, lookup_empty. Qed.

Lemma finish_graph_ok root (c : Collected) :
  collected_ok c → graph_ok (finish_graph root c).
Proof.
  intros (Hnd & Hids & Hends & _). unfold finish_graph, graph_ok.
  cbn [nodes edges].
  set (es := unique_loop (raw_edges root c) ∅ []).
  assert (Hkeys : node_id <$> (set_links (count_links es) <$> c.1.1.*2) = c.1.1.*1).
  { rewrite <- !list_fmap_compose. apply list_eq_Forall2, Forall2_fmap.
    clear -Hids. induction Hids as [|kv l [Hid _] _ IH]; constructor; [|done].
    simpl. done. }
  rewrite Hkeys. split; [done|]. split.
  - rewrite Forall_fmap, Forall_fmap.
    eapply Forall_impl; [exact Hids|]. intros [k n] [Hid Hpath]. simpl in *.
    split; [congruence|]. by rewrite count_links_degree.
  - destruct (unique_loop_spec (raw_edges root c) ∅) as (Hsub & _).
    apply Forall_forall. intros e He.
    assert (Hraw : e ∈ raw_edges root c).
    { eapply sublist_submseteq, elem_of_submseteq in Hsub; done. }
    unfold raw_edges in Hraw. apply elem_of_app in Hraw as [Hraw|Hraw].
    + by eapply Forall_forall in Hends.
    + pose proof (link_edges_ends root c.1.1) as Hl.
      by eapply Forall_forall in Hl.
Qed.

(** X14.  The graph document hangs together, for [api_graph] and for
    [generate_graph] alike: the node ids are pairwise distinct, the path
    of a node is its id, both ends of every edge are ids of nodes of the
    graph, and the link count of every node is the number of edges of the
    graph that start at it plus the number that end at it. *)
Theorem graph_well_formed :
  (∀ st, graph_ok (api_graph st)) ∧
  (∀ root files G, generate_graph root files = Some G → graph_ok G).
Proof.
  split.
  - intros st. apply finish_graph_ok, graph_files_ok.
  - intros root files G. unfold generate_graph.
    destruct (forallb _ files); [|done]. intros [= <-].
    apply finish_graph_ok, graph_of_files_ok.
Qed.

(** ** Wikilinks in running text *)

Lemma str_forall_app f a b :
  str_forall f (a +:+ b) = str_forall f a && str_forall f b.
Proof.
  induction a as [|c a IH]; [done|]. rewrite str_app_cons. simpl.
  by rewrite IH, andb_assoc.
Qed.

Lemma lacks_app c a b : lacks c (a +:+ b) = lacks c a && lacks c b.
Proof. apply str_forall_app. Qed.

(** Skipping the rest of a match. *)
Lemma sub_from_skip_app matcher repl m s :
  sub_from matcher repl (String.length m) (m +:+ s) = sub_from matcher repl 0 s.
Proof.
  induction m as [|c m IH]; [by destruct s|]. rewrite str_app_cons. simpl. exact IH.
Qed.

(** A match at the start of the text is replaced, and the pass goes on
    after it. *)
Lemma sub_from_match matcher repl c m s g1 g2 :
  matcher (String c m +:+ s) = Some (g1, g2, s) →
  sub_from matcher repl 0 (String c m +:+ s)
  = repl g1 g2 +:+ sub_from matcher repl 0 s.
Proof.
  intros Hm. rewrite str_app_cons in *. cbn [sub_from]. rewrite Hm. f_equal.
  replace (String.length (String c (m +:+ s)) - String.length s - 1)%nat
    with (String.length m).
  - apply sub_from_skip_app.
  - simpl. rewrite length_app_str. lia.
Qed.

(** Text in which no match starts is copied. *)
Lemma sub_from_unmatched matcher repl (ok : string → bool) pre s :
  (∀ c u, ok (String c u) = true →
          matcher (String c u +:+ s) = None ∧ ok u = true) →
  ok pre = true →
  sub_from matcher repl 0 (pre +:+ s) = pre +:+ sub_from matcher repl 0 s.
Proof.
  intros Hok. induction pre as [|c pre IH]; intros Hpre; [done|].
  destruct (Hok c pre Hpre) as [Hnone Hrest].
  rewrite str_app_cons in *. cbn [sub_from]. rewrite Hnone. by rewrite IH.
Qed.

Lemma expand_embeds_unmatched pre s :
  lacks "!" pre = true → expand_embeds (pre +:+ s) = pre +:+ expand_embeds s.
Proof.
  apply (sub_from_unmatched match_embed replace_embed (lacks "!")).
  intros c u H. unfold lacks in H. simpl in H.
  apply andb_true_iff in H as [Hc Hu]. split; [|done].
  rewrite str_app_cons. unfold match_embed.
  apply negb_true_iff, Ascii.eqb_neq in Hc.
  destruct c as [[] [] [] [] [] [] [] []]; try done.
Qed.

Lemma expand_wikilinks_unmatched pre s :
  brackets_apart pre = true →
  expand_wikilinks (pre +:+ s) = pre +:+ expand_wikilinks s.
Proof.
  apply (sub_from_unmatched match_wikilink replace_link brackets_apart).
  intros c u H. simpl in H. apply andb_true_iff in H as [Hc Hu]. split; [|done].
  rewrite str_app_cons. unfold match_wikilink.
  destruct (Ascii.eqb_spec c "[") as [->|Hne].
  - destruct u as [|c' u]; [done|]. rewrite str_app_cons.
    apply negb_true_iff, Ascii.eqb_neq in Hc.
    destruct c' as [[] [] [] [] [] [] [] []]; try done.
  - destruct c as [[] [] [] [] [] [] [] []]; try done.
Qed.

Lemma lacks_brackets_apart s : lacks "[" s = true → brackets_apart s = true.
Proof.
  induction s as [|c s IH]; [done|]. unfold lacks. simpl.
  intros [Hc Hs]%andb_true_iff. apply negb_true_iff in Hc. rewrite Hc. simpl.
  by apply IH.
Qed.

(** An opening bracket before text without one. *)
Lemma brackets_apart_open w :
  Str.nonempty w = true → lacks "[" w = true →
  brackets_apart (String "[" w) = true.
Proof.
  intros Hne Hw. cbn [brackets_apart]. rewrite (lacks_brackets_apart w Hw).
  destruct w as [|c w]; [done|]. unfold lacks in Hw. simpl in Hw.
  by apply andb_true_iff in Hw as [-> _].
Qed.

Lemma nonempty_app_l a b : Str.nonempty a = true → Str.nonempty (a +:+ b) = true.
Proof. by destruct a. Qed.

Lemma replace_embed_brackets_apart t g2 :
  Str.nonempty t = true → lacks "[" t = true →
  brackets_apart (replace_embed t g2) = true.
Proof.
  intros Hne Ht. unfold replace_embed.
  assert (Hw : ∀ mid, lacks "[" mid = true →
    brackets_apart (String "[" (t +:+ mid +:+ t +:+ ")")) = true).
  { intros mid Hmid. apply brackets_apart_open; [by apply nonempty_app_l|].
    by rewrite !lacks_app, Ht, Hmid. }
  destruct (is_image_ext _).
  - change ("![" +:+ t +:+ "](/raw/" +:+ t +:+ ")")
      with (String "!" (String "[" (t +:+ "](/raw/" +:+ t +:+ ")"))).
    cbn [brackets_apart]. change (Ascii.eqb "!" "[") with false. cbv iota.
    apply andb_true_iff. split; [done|]. by apply (Hw "](/raw/").
  - destruct (String.eqb _ ".pdf").
    + by apply (Hw "](#pdf:").
    + by apply (Hw "](#file:").
Qed.

Lemma match_wikilink_plain_then t s :
  target_ok t = true →
  match_wikilink ("[[" +:+ t +:+ "]]" +:+ s) = Some (t, None, s).
Proof.
  unfold target_ok. intros [Hne Hok]%andb_true_iff.
  change ("[[" +:+ t +:+ "]]" +:+ s) with (String "[" (String "[" (t +:+ "]]" +:+ s))).
  cbn [match_wikilink]. rewrite (span_until_app _ t ("]]" +:+ s) Hok eq_refl).
  by rewrite Hne.
Qed.

Lemma match_wikilink_alias_then t a s :
  target_ok t = true → alias_ok a = true →
  match_wikilink ("[[" +:+ t +:+ "|" +:+ a +:+ "]]" +:+ s) = Some (t, Some a, s).
Proof.
  unfold target_ok, alias_ok. intros [Hne Hok]%andb_true_iff Ha.
  change ("[[" +:+ t +:+ "|" +:+ a +:+ "]]" +:+ s)
    with (String "[" (String "[" (t +:+ String "|" (a +:+ "]]" +:+ s)))).
  cbn [match_wikilink].
  rewrite (span_until_app _ t (String "|" (a +:+ "]]" +:+ s)) Hok eq_refl).
  rewrite Hne. cbn [negb]. by rewrite (span_until_app _ a ("]]" +:+ s) Ha eq_refl).
Qed.

(** X15.  [process_wikilinks] works through a text piece by piece.  Text
    without an opening bracket and without an exclamation mark is copied;
    a wikilink [[[t]]] or [[[t|a]]] at the start of the text becomes its
    markdown link and an embed [![[t]]] its markdown image or link, and in
    each case the rest of the text is processed on its own (for targets
    and aliases free of brackets and exclamation marks): neither pass
    rewrites what the other wrote. *)
Theorem process_wikilinks_piecewise (s : string) :
  process_wikilinks "" = "" ∧
  (∀ pre, plain_text pre = true →
     process_wikilinks (pre +:+ s) = pre +:+ process_wikilinks s) ∧
  (∀ t, simple_target t = true →
     process_wikilinks ("[[" +:+ t +:+ "]]" +:+ s)
     = "[" +:+ t +:+ "](" +:+ wikilink_href t +:+ ")" +:+ process_wikilinks s ∧
     process_wikilinks ("![[" +:+ t +:+ "]]" +:+ s)
     = replace_embed t None +:+ process_wikilinks s ∧
     ∀ a, simple_alias a = true →
       process_wikilinks ("[[" +:+ t +:+ "|" +:+ a +:+ "]]" +:+ s)
       = "[" +:+ wikilink_display t (Some a) +:+ "](" +:+ wikilink_href t +:+ ")"
         +:+ process_wikilinks s).
Proof.
  split; [done|]. split.
  { intros pre [Hb He]%andb_true_iff. unfold process_wikilinks.
    rewrite expand_embeds_unmatched by done.
    by rewrite expand_wikilinks_unmatched by (by apply lacks_brackets_apart). }
  intros t Ht. unfold simple_target in Ht.
  apply andb_true_iff in Ht as [Ht Hte]. apply andb_true_iff in Ht as [Hok Htb].
  assert (Hne : Str.nonempty t = true).
  { unfold target_ok in Hok. by apply andb_true_iff in Hok as [? _]. }
  assert (Hlink : ∀ alias rest,
    match_wikilink (String "[" (String "[" rest) +:+ expand_embeds s)
      = Some (t, alias, expand_embeds s) →
    lacks "!" (String "[" (String "[" rest)) = true →
    process_wikilinks (String "[" (String "[" rest) +:+ s)
    = "[" +:+ wikilink_display t alias +:+ "](" +:+ wikilink_href t +:+ ")"
      +:+ process_wikilinks s).
  { intros alias rest Hm Hbang. unfold process_wikilinks.
    rewrite expand_embeds_unmatched by done. unfold expand_wikilinks at 1.
    rewrite (sub_from_match _ _ _ _ _ _ _ Hm), replace_link_spec.
    by rewrite !str_app_assoc. }
  split; [|split].
  - trans (process_wikilinks (String "[" (String "[" (t +:+ "]]")) +:+ s)).
    { f_equal. by repeat (progress rewrite ?str_app_cons, ?str_app_assoc). }
    apply (Hlink None (t +:+ "]]")).
    + rewrite <- (match_wikilink_plain_then t (expand_embeds s) Hok). f_equal.
      by repeat (progress rewrite ?str_app_cons, ?str_app_assoc).
    + unfold lacks. simpl. fold (lacks "!" (t +:+ "]]")). by rewrite lacks_app, Hte.
  - unfold process_wikilinks.
    assert (Hm : match_embed (String "!" ("[[" +:+ t +:+ "]]") +:+ s)
                 = Some (t, None, s)).
    { rewrite str_app_cons. cbn [match_embed].
      rewrite <- (match_wikilink_plain_then t s Hok). f_equal.
      by repeat (progress rewrite ?str_app_cons, ?str_app_assoc). }
    assert (Heq : "![[" +:+ t +:+ "]]" +:+ s
                  = String "!" ("[[" +:+ t +:+ "]]") +:+ s).
    { by repeat (progress rewrite ?str_app_cons, ?str_app_assoc). }
    rewrite Heq. unfold expand_embeds at 1.
    rewrite (sub_from_match _ _ _ _ _ _ _ Hm).
    by rewrite expand_wikilinks_unmatched by (by apply replace_embed_brackets_apart).
  - intros a [Ha Hae]%andb_true_iff.
    trans (process_wikilinks
             (String "[" (String "[" (t +:+ "|" +:+ a +:+ "]]")) +:+ s)).
    { f_equal. by repeat (progress rewrite ?str_app_cons, ?str_app_assoc). }
    apply (Hlink (Some a) (t +:+ "|" +:+ a +:+ "]]")).
    + rewrite <- (match_wikilink_alias_then t a (expand_embeds s) Hok Ha). f_equal.
      by repeat (progress rewrite ?str_app_cons, ?str_app_assoc).
    + unfold lacks. simpl. fold (lacks "!" (t +:+ "|" +:+ a +:+ "]]")).
      by rewrite !lacks_app, Hte, Hae.
Qed.

(** ** The archive and the tree *)















(** ** The exported note documents *)



(** ** The GET endpoints stay in the vault *)

Lemma reach_walk root acc anc cur :
  reach root acc anc cur → fs.walk [] root (List.rev acc) = Some cur.
Proof.
  induction 1 as [|acc anc es x c _ IH Hx Hget]; [done|].
  simpl. by rewrite walk_snoc, IH.
Qed.

(** Resolving a path that leads somewhere leads to the same place. *)
Lemma walk_normalize_from root l :
  ∀ acc anc cur n,
  reach root acc anc cur → fs.walk anc cur l = Some n →
  fs.walk [] root (pathlib.normalize acc l) = Some n.
Proof.
  induction l as [|x l IH]; intros acc anc cur n Hreach H.
  { simpl in H. injection H as <-. simpl. by eapply reach_walk. }
  simpl in H. destruct cur as [|es]; [done|]. simpl.
  destruct (String.eqb_spec x "..") as [->|Hx].
  - destruct anc as [|a anc'].
    + inversion Hreach; subst. by eapply IH; [constructor|].
    + inversion Hreach; subst. simpl. by eapply IH.
  - destruct (fs.get_entry x es) as [c|] eqn:Hget; [|done].
    eapply IH; [|exact H]. by constructor.
Qed.

Lemma stat_resolve root p n :
  fs.stat cwd root p = Some n →
  fs.walk [] root (pathlib.parts (pathlib.resolve cwd p)) = Some n.
Proof.
  unfold fs.stat, fs.abs_parts, pathlib.resolve. simpl.
  apply walk_normalize_from. constructor.
Qed.

(** A path that passes the containment test of the GET endpoints leads
    below the vault. *)
Lemma inside_vault_below root fpath n :
  inside_vault fpath = true → fs.stat cwd root fpath = Some n →
  ∃ l, clean l ∧ fs.walk [] root (pathlib.parts VAULT ++ l) = Some n.
Proof.
  intros Hin Hstat. unfold inside_vault in Hin. apply bool_decide_eq_true in Hin.
  rewrite VAULT_resolved in Hin. destruct Hin as [rel Hrel].
  unfold pathlib.relative_to in Hrel.
  destruct (String.eqb _ _); [|done].
  destruct (pathlib.strip_prefix _ _) as [l|] eqn:Hs; [|done].
  apply strip_prefix_app in Hs. exists l. split.
  - pose proof (resolve_clean fpath) as Hcl. rewrite Hs in Hcl.
    by apply Forall_app in Hcl as [_ ?].
  - rewrite <- Hs. by apply stat_resolve.
Qed.

(** X18.  The two GET endpoints never reach outside the vault, whatever
    path is asked for.  The bytes [raw_file] serves are the content of a
    regular file below the vault directory, and the note document of
    [api_note] renders the content of such a file and carries its
    modification time. *)
Theorem get_endpoints_stay_in_vault st req p :
  (∀ bytes, raw_file st p = Ok200 (FileBytes bytes) →
     ∃ l m, clean l ∧
       fs.walk [] (st_fs st) (pathlib.parts VAULT ++ l) = Some (File bytes m)) ∧
  (∀ html path name mtime e,
     api_note_get st req p = Ok200 (NoteDoc html path name mtime e) →
     ∃ l c, clean l ∧
       fs.walk [] (st_fs st) (pathlib.parts VAULT ++ l) = Some (File c mtime) ∧
       html = render_markdown c).
Proof.
  split.
  - intros bytes H. unfold raw_file in H.
    destruct (resolve_vault_path (st_fs st) p) as [fpath|]; [|done].
    destruct (fs.is_file cwd (st_fs st) fpath); [|done]. simpl in H.
    destruct (inside_vault fpath) eqn:Hin; [|done]. simpl in H.
    unfold fs.read_text in H.
    destruct (fs.stat cwd (st_fs st) fpath) as [[c m|]|] eqn:Hstat; [|done..].
    injection H as <-.
    destruct (inside_vault_below _ _ _ Hin Hstat) as (l & Hl & Hw). eauto.
  - intros html path name mtime e H. unfold api_note_get in H.
    destruct (resolve_vault_path (st_fs st) p) as [fpath|]; [|done].
    destruct (fs.is_file cwd (st_fs st) fpath); [|done]. simpl in H.
    destruct (inside_vault fpath) eqn:Hin; [|done]. simpl in H.
    unfold fs.read_text, fs.st_mtime in H.
    destruct (fs.stat cwd (st_fs st) fpath) as [[c m|]|] eqn:Hstat; [|done..].
    destruct (pathlib.relative_to fpath VAULT); [|done].
    injection H as <- _ _ <- _.
    destruct (inside_vault_below _ _ _ Hin Hstat) as (l & Hl & Hw). eauto.
Qed.

Transparent VAULT.

End Server.

(** * Worked examples on the sample vault *)

(** The functions of the model, instantiated with the sample working
    directory and script location. *)
Abbreviation demo_safe_vault_path cfg := (_safe_vault_path demo_cwd demo_script cfg).


(** C7, instance.  Session [sid1] created [X.md] only; its PUT and DELETE
    on the older [Y.md] are answered 403 and change nothing. *)
Lemma ownership_gating_witness :
  fs.is_dir_node (st_fs demo_state) = true ∧
  demo_safe_vault_path _DEFAULTS "Y.md" = Some (mkPath "/" ["srv"; "vault"; "Y.md"]) ∧
  fs.is_file demo_cwd (st_fs demo_state) (mkPath "/" ["srv"; "vault"; "Y.md"]) = true ∧
  ∃ msg, _api_note_delete demo_cwd demo_script _DEFAULTS demo_state demo_request "Y.md"
         = (JsonError 403 msg, demo_state).
Proof.
  assert (H1 : fs.is_dir_node (st_fs demo_state) = true) by reflexivity.
  assert (H2 : demo_safe_vault_path _DEFAULTS "Y.md"
               = Some (mkPath "/" ["srv"; "vault"; "Y.md"]))
    by (vm_compute; reflexivity).
  assert (H3 : fs.is_file demo_cwd (st_fs demo_state)
                 (mkPath "/" ["srv"; "vault"; "Y.md"]) = true) by reflexivity.
  split; [exact H1|]. split; [exact H2|]. split; [exact H3|].
  destruct (ownership_gating demo_cwd demo_script _DEFAULTS demo_state demo_request
              "Y.md" _ H1 H2 H3) as (rel & Hrel & Hoff & _).
  injection Hrel as <-.
  destruct Hoff as (_ & msg & Hdel & _); [reflexivity| |by exists msg].
  apply (proj1 (bool_decide_eq_false _)). vm_compute. reflexivity.
Defined.


(** C9, the failing input.  With [allow_edit_all] set in the configuration
    the tree of the static export marks every file editable. *)
Lemma generate_tree_editable_under_edit_all :
  ALLOW_EDIT_ALL edit_all_config = true ∧
  generate_tree demo_cwd demo_script edit_all_config 10 demo_root
  = Done [Folder "Notes" "Notes"
            [FileNode "A.md" "Notes/A.md" true;
             FileNode "B.md" "Notes/B.md" true];
          FileNode "_sitemap.md" "_sitemap.md" true;
          FileNode "Y.md" "Y.md" true].
Proof. split; vm_compute; reflexivity. Qed.

(** C2, the failing inputs.  The GET endpoints go through
    [resolve_vault_path], whose direct hit is returned unchecked: the
    excluded file [server.py] and a file under the excluded directory
    [.git] are read and served, although the sandbox rejects both paths. *)
Lemma get_endpoints_serve_excluded :
  demo_safe_vault_path _DEFAULTS "server.py" = None ∧
  demo_safe_vault_path _DEFAULTS ".git/config" = None ∧
  raw_file demo_cwd demo_script _DEFAULTS demo_state "server.py"
    = Ok200 (FileBytes "import flask") ∧
  raw_file demo_cwd demo_script _DEFAULTS demo_state ".git/config"
    = Ok200 (FileBytes "[core]") ∧
  (∀ markdown_html,
     api_note_get demo_cwd demo_script _DEFAULTS markdown_html demo_state
                  demo_request "server.py"
     = Ok200 (NoteDoc (markdown_html "import flask") "server.py" "server"
                      "1700000000.0" false)) ∧
  api_note_raw demo_cwd demo_script edit_all_config demo_state demo_request
               ".git/config"
    = Ok200 (RawDoc "[core]" ".git/config").
Proof. repeat split; intros; vm_compute; reflexivity. Qed.

Abbreviation demo_api_graph := (api_graph demo_cwd demo_script _DEFAULTS demo_state).
Abbreviation demo_static_graph :=
  (generate_graph demo_cwd demo_script _DEFAULTS demo_root
     (collect_files demo_cwd demo_script _DEFAULTS demo_root)).


(** [Notes/A.md] links to [B] twice, once with an alias; the graph holds
    one link edge for the pair. *)
Example edge_dedup_example :
  finditer_from match_wikilink 0 "See [[B]] and [[missing]]. Again [[B|b]]."
    = [("B", None); ("missing", None); ("B", Some "b")] ∧
  List.filter (λ e, bool_decide (source e = "Notes/A.md")) (edges demo_api_graph)
    = [mkEdge "Notes/A.md" "Notes/B.md" link_edge].
Proof. split; vm_compute; reflexivity. Qed.

(** C3, the failing input.  [collect_files] drops every relative path
    that begins with the characters [_site], so the note [_sitemap.md] at
    the top of the vault is a node of the live graph and not of the
    static one. *)
Lemma static_graph_differs_from_live :
  let live := api_graph demo_cwd demo_script _DEFAULTS demo_state in
  let static :=
    generate_graph demo_cwd demo_script _DEFAULTS demo_root
      (collect_files demo_cwd demo_script _DEFAULTS demo_root) in
  existsb (String.eqb "_sitemap.md") (node_id <$> nodes live) = true ∧
  (λ G, existsb (String.eqb "_sitemap.md") (node_id <$> nodes G)) <$> static
  = Some false ∧
  static ≠ Some live.
Proof.
  cbv zeta. split; [vm_compute; reflexivity|]. split; [vm_compute; reflexivity|].
  intros H. vm_compute in H. discriminate H.
Qed.

(** X1, instance.  On the vault laid out as the project is, where [_site] and
    [build_static.py] are excluded by the configuration already, the
    static graph is the live graph. *)
Lemma static_graph_is_live_graph_witness :
  static_filters_idle demo_cwd demo_script _DEFAULTS demo_root_plain = true ∧
  generate_graph demo_cwd demo_script _DEFAULTS demo_root_plain
    (collect_files demo_cwd demo_script _DEFAULTS demo_root_plain)
  = Some (api_graph demo_cwd demo_script _DEFAULTS demo_state_plain).
Proof.
  assert (H : static_filters_idle demo_cwd demo_script _DEFAULTS demo_root_plain = true)
    by (vm_compute; reflexivity).
  split; [exact H|].
  exact (static_graph_is_live_graph demo_cwd demo_script _DEFAULTS demo_state_plain H).
Defined.

(** C5, instance. *)
Lemma wikilink_expansion_witness :
  target_ok "Foo" = true ∧ expand_wikilinks "[[Foo]]" = "[Foo](#note:Foo.md)".
Proof.
  split; [reflexivity|].
  exact (proj1 (proj2 (wikilink_expansion "Foo") eq_refl)).
Defined.

Abbreviation demo_get_tree_hash :=
  (_get_tree_hash demo_cwd demo_script _DEFAULTS 20).
Abbreviation demo_fingerprint := (fingerprint demo_cwd demo_script _DEFAULTS 20).



Abbreviation demo_upload :=
  (api_files_upload demo_cwd demo_script _DEFAULTS (λ s, s) 13 demo_state
     demo_request).

(** Uploading [Y.md] to the sample vault, where [Y.md] exists, creates
    [Y_1.md] and leaves [Y.md] as it was; uploading [B.md] into [Notes]
    creates [Notes/B_1.md]. *)
Example upload_picks_fresh_name :
  (λ o, match o with
        | Done (resp, st') =>
            Some (resp,
                  fs.read_text demo_cwd (st_fs st') (mkPath "/" ["srv"; "vault"; "Y.md"]),
                  fs.read_text demo_cwd (st_fs st') (mkPath "/" ["srv"; "vault"; "Y_1.md"]))
        | _ => None
        end) (demo_upload (Some ("Y.md", "new")) None)
  = Some (Ok200 (CreatedOk "Y_1.md" None), Some "old", Some "new") ∧
  (λ o, match o with Done (resp, _) => Some resp | _ => None end)
    (demo_upload (Some ("B.md", "new")) (Some " Notes "))
  = Some (Ok200 (CreatedOk "Notes/B_1.md" None)).
Proof. split; vm_compute; reflexivity. Qed.


(** ** Instances for the handlers *)


(** X3, instance.  Session [sid1] deletes [Notes/A.md]; a second DELETE
    finds nothing. *)
Lemma delete_removes_exactly_witness :
  ∃ st',
    _api_note_delete demo_cwd demo_script _DEFAULTS demo_state_owner demo_request
      "Notes/A.md" = (Ok200 DeleteOk, st') ∧
    fs.exists_ demo_cwd (st_fs st') demo_note = false ∧
    _api_note_delete demo_cwd demo_script _DEFAULTS st' demo_request "Notes/A.md"
    = (Abort 404, st').
Proof.
  destruct (delete_removes_exactly demo_cwd demo_script _DEFAULTS demo_state_owner
              demo_request "Notes/A.md" demo_note (mkPath "" ["Notes"; "A.md"]))
    as (st' & Hdel & Hgone & _ & _ & _ & _ & Hagain & _);
    [vm_compute; reflexivity..|].
  exists st'. split; [exact Hdel|]. split; [exact Hgone|exact Hagain].
Defined.

(** X4, instance.  A request for the note [Notes/New] creates the empty
    file [Notes/New.md]. *)
Lemma new_note_created_witness :
  ∃ st' fpath,
    api_files_new demo_cwd demo_script _DEFAULTS (λ s, s) demo_state demo_request
      (BodyDict (Some (Some " Notes/New ")))
    = (Ok200 (CreatedOk "Notes/New.md" None), st') ∧
    _safe_vault_path demo_cwd demo_script _DEFAULTS "Notes/New.md" = Some fpath ∧
    fs.read_text demo_cwd (st_fs st') fpath = Some "".
Proof.
  set (run := api_files_new demo_cwd demo_script _DEFAULTS (λ s, s) demo_state
                demo_request (BodyDict (Some (Some " Notes/New ")))).
  assert (H : run = (Ok200 (CreatedOk "Notes/New.md" None), run.2)).
  { apply injective_projections; [vm_compute; reflexivity|reflexivity]. }
  destruct (new_note_created demo_cwd demo_script _DEFAULTS (λ s, s) demo_state
              demo_request _ _ _ _ H) as (fpath & Hsafe & _ & Hread & _).
  exists run.2, fpath. split; [exact H|]. split; [exact Hsafe|exact Hread].
Defined.


(** X6, instance.  A PUT on [Y.md] by a session that does not own it is
    refused and changes nothing. *)
Lemma refused_requests_change_nothing_witness :
  (_api_note_put demo_cwd demo_script _DEFAULTS demo_state demo_request "Y.md"
     (BodyDict (Some (Some "x")))).1
  = JsonError 403 "You can only edit files you created" ∧
  (_api_note_put demo_cwd demo_script _DEFAULTS demo_state demo_request "Y.md"
     (BodyDict (Some (Some "x")))).2 = demo_state.
Proof.
  set (run := _api_note_put demo_cwd demo_script _DEFAULTS demo_state demo_request
                "Y.md" (BodyDict (Some (Some "x")))).
  assert (H1 : run.1 = JsonError 403 "You can only edit files you created")
    by (vm_compute; reflexivity).
  split; [exact H1|].
  apply (proj1 (refused_requests_change_nothing demo_cwd demo_script _DEFAULTS
                  (λ s, s) demo_state demo_request)
           "Y.md" (BodyDict (Some (Some "x"))) run.1 run.2).
  - apply surjective_pairing.
  - right. rewrite H1. eauto.
Defined.

(** X7, instance.  After the PUT, a poll at time 101 computes the
    fingerprint anew. *)
Lemma poll_after_put_witness :
  ∃ st',
    _api_note_put demo_cwd demo_script _DEFAULTS demo_state_owner demo_request
      "Notes/A.md" (BodyDict (Some (Some "new text")))
    = (Ok200 (PutOk "Notes/A.md" "1700000999.0"), st') ∧
    api_check demo_cwd demo_script _DEFAULTS 20 st' (demo_request_at 101)
      (Some "Notes/A.md")
    = match fingerprint demo_cwd demo_script _DEFAULTS 20 (st_fs st') with
      | Done digest =>
          Done (Some "1700000999.0", digest,
                mkState (st_fs st') (_session_files demo_state_owner)
                        (mkTreeCache (Some digest) 101))
      | Raised => Raised
      | OutOfFuel => OutOfFuel
      end.
Proof.
  set (run := _api_note_put demo_cwd demo_script _DEFAULTS demo_state_owner
                demo_request "Notes/A.md" (BodyDict (Some (Some "new text")))).
  assert (H : run = (Ok200 (PutOk "Notes/A.md" "1700000999.0"), run.2)).
  { apply injective_projections; [vm_compute; reflexivity|reflexivity]. }
  exists run.2. split; [exact H|].
  apply (poll_after_put demo_cwd demo_script _DEFAULTS demo_state_owner demo_request
           "Notes/A.md" demo_note (mkPath "" ["Notes"; "A.md"]) "new text" run.2);
    [vm_compute; reflexivity| vm_compute; reflexivity|exact H].
Defined.

(** ** Instances for the tree and the walker *)

(** X8, instance.  The tree session [sid1] is shown. *)
Lemma tree_flags_invariant_witness :
  ∃ items,
    api_tree demo_cwd demo_script _DEFAULTS 10 demo_state_owner demo_request
    = Done items ∧
    tree_all (node_flags _DEFAULTS (owned_by demo_state_owner demo_request)) items.
Proof.
  assert (Hdone :
    match api_tree demo_cwd demo_script _DEFAULTS 10 demo_state_owner demo_request
    with Done _ => True | _ => False end) by (vm_compute; exact I).
  destruct (api_tree demo_cwd demo_script _DEFAULTS 10 demo_state_owner demo_request)
    as [items| |] eqn:H; [|destruct Hdone..].
  exists items. split; [reflexivity|].
  exact (proj1 (proj2 (tree_flags_invariant demo_cwd demo_script _DEFAULTS))
           10%nat demo_state_owner demo_request items H).
Defined.






(** X14, instance.  The graph of the sample vault, live and exported, is
    well formed. *)
Lemma graph_well_formed_witness :
  graph_ok (api_graph demo_cwd demo_script _DEFAULTS demo_state) ∧
  ∃ G,
    generate_graph demo_cwd demo_script _DEFAULTS demo_root_plain
      (collect_files demo_cwd demo_script _DEFAULTS demo_root_plain) = Some G ∧
    graph_ok G.
Proof.
  split; [exact (proj1 (graph_well_formed demo_cwd demo_script _DEFAULTS) demo_state)|].
  assert (Hdone :
    match generate_graph demo_cwd demo_script _DEFAULTS demo_root_plain
            (collect_files demo_cwd demo_script _DEFAULTS demo_root_plain)
    with Some _ => True | None => False end) by (vm_compute; exact I).
  destruct (generate_graph demo_cwd demo_script _DEFAULTS demo_root_plain
              (collect_files demo_cwd demo_script _DEFAULTS demo_root_plain))
    as [G|] eqn:H; [|destruct Hdone].
  exists G. split; [reflexivity|].
  exact (proj2 (graph_well_formed demo_cwd demo_script _DEFAULTS) _ _ G H).
Defined.

(** X15, instance.  A sentence with a link, an aliased link and an embed
    taken apart piece by piece. *)
Lemma process_wikilinks_piecewise_witness :
  plain_text "See " = true ∧ simple_target "B" = true ∧
  simple_alias "b" = true ∧
  process_wikilinks ("See " +:+ "[[B|b]]") = "See " +:+ process_wikilinks "[[B|b]]" ∧
  process_wikilinks ("[[" +:+ "B" +:+ "|" +:+ "b" +:+ "]]" +:+ " end")
  = "[" +:+ wikilink_display "B" (Some "b") +:+ "](" +:+ wikilink_href "B" +:+ ")"
    +:+ process_wikilinks " end" ∧
  process_wikilinks ("![[" +:+ "B" +:+ "]]" +:+ " end")
  = replace_embed "B" None +:+ process_wikilinks " end".
Proof.
  assert (Hp : plain_text "See " = true) by reflexivity.
  assert (Ht : simple_target "B" = true) by reflexivity.
  assert (Ha : simple_alias "b" = true) by reflexivity.
  split; [exact Hp|]. split; [exact Ht|]. split; [exact Ha|]. split.
  { exact (proj1 (proj2 (process_wikilinks_piecewise "[[B|b]]")) "See " Hp). }
  destruct (proj2 (proj2 (process_wikilinks_piecewise " end")) "B" Ht)
    as (_ & Hembed & Halias).
  split; [exact (Halias "b" Ha)|exact Hembed].
Defined.



(** X18, instance.  A request that climbs out of the vault and back in
    is served from below the vault. *)
Lemma get_endpoints_stay_in_vault_witness :
  raw_file demo_cwd demo_script _DEFAULTS demo_state "../vault/Notes/B.md"
  = Ok200 (FileBytes "# B") ∧
  ∃ l m, clean l ∧
    fs.walk [] demo_root (pathlib.parts (VAULT demo_cwd demo_script) ++ l)
    = Some (File "# B" m).
Proof.
  assert (H : raw_file demo_cwd demo_script _DEFAULTS demo_state
                "../vault/Notes/B.md" = Ok200 (FileBytes "# B"))
    by (vm_compute; reflexivity).
  split; [exact H|].
  exact (proj1 (get_endpoints_stay_in_vault demo_cwd demo_script _DEFAULTS
                  (λ s, s) demo_state demo_request "../vault/Notes/B.md")
           "# B" H).
Defined.
